(** * showdown-comp-coach: the chat orchestration layer of [src/app.py]

    A shallow embedding of the tool functions, the prompt builder, the runner
    cache, the session initialisation and the response aggregation of
    [src/app.py], with the properties the specification states about them,
    followed by the accounts (users collection, registration, login, saved
    teams) and the properties the code itself shows.

    Conventions of the embedding.
    - A Python [str] is a [string]; one [ascii] stands for one code point
      below 256 (Latin-1), which is where [str.lower] and [str.strip] are
      modelled.
    - A call that may raise returns a [result]; [exn] stands for an instance
      of (a subclass of) Python's [Exception], the errors a callee reports.
      Interpreter signals outside [Exception] (KeyboardInterrupt, SystemExit,
      task cancellation) are not modelled.
    - The module-level dict [RUNNER_CACHE] is a [gmap], the module-level set
      [INITIALIZED_SESSIONS] a [gset]; both are threaded explicitly, together
      with the trace of calls made to the outside world. *)

From Stdlib Require Import ZArith NArith Ascii String Bool List Sorted Lia.
From stdpp Require Import base option gmap strings list.

Import ListNotations.
Local Open Scope Z_scope.

(** ** Exceptions and results *)

Record exn : Type := Exn {
  exn_type : string;   (* the class name, e.g. [TypeError] *)
  exn_text : string    (* [str(e)] *)
}.

(** [str(e)] *)
Definition str_exn (e : exn) : string := exn_text e.

Inductive result (A : Type) : Type :=
| Ok (a : A)
| Raise (e : exn).
Arguments Ok {A} a.
Arguments Raise {A} e.

Definition rbind {A B : Type} (r : result A) (k : A → result B) : result B :=
  match r with
  | Ok a => k a
  | Raise e => Raise e
  end.

Notation "'do' x '<~' r ';' k" := (rbind r (fun x => k))
  (at level 10, x name, r at level 100, k at level 200).
Notation "'run' r ';' k" := (rbind r (fun _ => k))
  (at level 10, r at level 100, k at level 200).

(** ** Python string primitives used by the tools *)

Module PyStr.

Definition code (c : ascii) : N := N_of_ascii c.

Definition between (lo hi n : N) : bool := ((lo <=? n) && (n <=? hi))%N.

(** The characters [str.strip()] removes: the code points below 256 for
    which [str.isspace] holds (TAB..CR, FS..US, SPACE, NEL, NBSP). *)
Definition isspace (c : ascii) : bool :=
  let n := code c in
  between 9 13 n || between 28 32 n || (n =? 133)%N || (n =? 160)%N.

(** The upper-case letters below 256: A-Z and the Latin-1 capitals, each
    32 below its lower-case form. *)
Definition isupper (c : ascii) : bool :=
  let n := code c in
  between 65 90 n || between 192 214 n || between 216 222 n.

Definition lower_char (c : ascii) : ascii :=
  if isupper c then ascii_of_N (code c + 32) else c.

(** [s.lower()] *)
Fixpoint lower (s : string) : string :=
  match s with
  | EmptyString => EmptyString
  | String c s' => String (lower_char c) (lower s')
  end.

Fixpoint lstrip (s : string) : string :=
  match s with
  | EmptyString => EmptyString
  | String c s' => if isspace c then lstrip s' else s
  end.

Fixpoint rstrip (s : string) : string :=
  match s with
  | EmptyString => EmptyString
  | String c s' =>
      match rstrip s' with
      | EmptyString => if isspace c then EmptyString else String c EmptyString
      | r => String c r
      end
  end.

(** [s.strip()] *)
Definition strip (s : string) : string := rstrip (lstrip s).

(** [s.replace(old, new)] for a one-character [old]. *)
Fixpoint replace_char (old : ascii) (new : string) (s : string) : string :=
  match s with
  | EmptyString => EmptyString
  | String c s' =>
      if Ascii.eqb c old then new +:+ replace_char old new s'
      else String c (replace_char old new s')
  end.

Fixpoint startswith (p s : string) : bool :=
  match p, s with
  | EmptyString, _ => true
  | String a p', String b s' => Ascii.eqb a b && startswith p' s'
  | String _ _, EmptyString => false
  end.

(** [sub in s] *)
Fixpoint contains (sub s : string) : bool :=
  startswith sub s ||
  match s with
  | EmptyString => false
  | String _ s' => contains sub s'
  end.

(** [s[:n]] for [n >= 0] *)
Fixpoint take (n : nat) (s : string) : string :=
  match n, s with
  | S n', String c s' => String c (take n' s')
  | _, _ => EmptyString
  end.

(** [sep.join(l)] *)
Fixpoint join (sep : string) (l : list string) : string :=
  match l with
  | [] => EmptyString
  | [x] => x
  | x :: rest => x +:+ sep +:+ join sep rest
  end.

End PyStr.

(** ** The outside world of the tools: [requests] and [json] *)

#[warnings="-register-all"]
Inductive json : Type :=
| JNull
| JBool (b : bool)
| JInt (z : Z)
| JFloat (repr : string)
| JStr (s : string)
| JArr (items : list json)
| JObj (members : list (string * json)).   (* a dict, in insertion order *)

Record Response : Type := {
  status_code : Z;
  json_body : option json   (* [None]: the body is not valid JSON *)
}.

(** [response.raise_for_status()] of the requests library: an [HTTPError]
    for a 4xx or 5xx status, nothing otherwise. *)
Definition raise_for_status (r : Response) : result unit :=
  if (400 <=? status_code r) && (status_code r <? 600)
  then Raise (Exn "HTTPError" "error status")
  else Ok tt.

(** [response.json()] *)
Definition response_json (r : Response) : result json :=
  match json_body r with
  | Some j => Ok j
  | None => Raise (Exn "JSONDecodeError" "body is not JSON")
  end.

(** [data.keys()] *)
Definition keys (data : json) : result (list string) :=
  match data with
  | JObj members => Ok (map fst members)
  | _ => Raise (Exn "AttributeError" "object has no attribute 'keys'")
  end.

(** [x[:n]] on a parsed JSON value: lists and strings slice, a dict and the
    scalars raise. *)
Definition slice_to (n : nat) (x : json) : result json :=
  match x with
  | JArr items => Ok (JArr (firstn n items))
  | JStr s => Ok (JStr (PyStr.take n s))
  | _ => Raise (Exn "TypeError" "object is not sliceable")
  end.

(** ** Tools (lines 74-91) *)

Definition SPACE : ascii := ascii_of_nat 32.

(** [format.lower().strip().replace(" ", "")] *)
Definition normalize (format : string) : string :=
  PyStr.replace_char SPACE "" (PyStr.strip (PyStr.lower format)).

(** [clean_format] of [get_usage_stats] (lines 76-77) *)
Definition usage_clean_format (format : string) : string :=
  let clean_format := normalize format in
  if PyStr.contains "gen9ou" clean_format then "gen9ou" else clean_format.

(** [clean_format] of [get_sample_teams] (line 86) *)
Definition teams_clean_format (format : string) : string :=
  normalize format.

Definition usage_url (format : string) : string :=
  "https://data.pkmn.cc/stats/" +:+ usage_clean_format format +:+ ".json".

Definition teams_url (format : string) : string :=
  "https://data.pkmn.cc/teams/" +:+ teams_clean_format format +:+ ".json".

Definition usage_not_found (format : string) : string :=
  "Stats not found for " +:+ usage_clean_format format +:+ ".".

Definition teams_not_found (format : string) : string :=
  "No samples for " +:+ teams_clean_format format +:+ ".".

Section Tools.

(** [requests.get]: the response, or the exception of a failed connection. *)
Variable requests_get : string → result Response.
(** [json.dumps] *)
Variable json_dumps : json → string.

(** The [try] body of [get_usage_stats] (lines 80-82). *)
Definition usage_try (url : string) : result string :=
  do response <~ requests_get url;
  run raise_for_status response;
  do data <~ response_json response;
  do ks <~ keys data;
  let top_20 := firstn 20 ks in
  Ok ("Top 20 Usage: " +:+ PyStr.join ", " top_20).

Definition get_usage_stats (format : string) : string :=
  match usage_try (usage_url format) with
  | Ok s => s
  | Raise _ => usage_not_found format
  end.

(** The [try] body of [get_sample_teams] (lines 89-90). *)
Definition teams_try (url : string) : result string :=
  do response <~ requests_get url;
  run raise_for_status response;
  do data <~ response_json response;
  do first2 <~ slice_to 2 data;
  Ok ("Sample Teams: " +:+ json_dumps first2).

Definition get_sample_teams (format : string) : string :=
  match teams_try (teams_url format) with
  | Ok s => s
  | Raise _ => teams_not_found format
  end.

End Tools.

(** ** User (lines 46-50) *)

Record User : Type := {
  user_id : string;
  username : string;
  knowledge_level : string
}.

(** [User.__init__]: [user_dict] is the stored user document, its [_id]
    already in the string form [str] gives it. A missing [_id] or
    [username] is a [KeyError]; a missing [knowledge_level] is 'Beginner'. *)
Definition User_init (user_dict : gmap string string) : result User :=
  match user_dict !! "_id" with
  | None => Raise (Exn "KeyError" "'_id'")
  | Some i =>
      match user_dict !! "username" with
      | None => Raise (Exn "KeyError" "'username'")
      | Some u =>
          Ok {| user_id := i;
                username := u;
                knowledge_level := default "Beginner" (user_dict !! "knowledge_level") |}
      end
  end.

(** ** System prompt (lines 94-103) *)

Definition NL : string := String (ascii_of_nat 10) EmptyString.

Definition base_prompt : string :=
  "You are 'Rotom-Coach', a Grandmaster Pokemon Coach." +:+ NL +:+
  "    **Directives:**" +:+ NL +:+
  "    1. Ask for Format if missing." +:+ NL +:+
  "    2. Use `get_usage_stats` for data." +:+ NL +:+
  "    3. OUTPUT TEAMS IN SHOWDOWN IMPORTABLE FORMAT INSIDE CODE BLOCKS (```)." +:+ NL +:+
  "    ".

Definition beginner_suffix : string := "Explain terms (STAB, EVs). Be educational.".
Definition expert_suffix : string := "Be concise. Focus on calcs and win-cons.".

Definition get_system_prompt (knowledge_level : string) : string :=
  if String.eqb knowledge_level "Beginner" then base_prompt +:+ beginner_suffix
  else if String.eqb knowledge_level "Expert" then base_prompt +:+ expert_suffix
  else base_prompt.

(** ** Runner (lines 105-125) *)

Definition APP_NAME : string := "agents".

Inductive tool : Type := tool_get_usage_stats | tool_get_sample_teams.

Record HttpRetryOptions : Type := { attempts : Z }.

Record Gemini : Type := {
  model : string;
  retry_options : HttpRetryOptions
}.

Record LlmAgent : Type := {
  name : string;
  agent_model : Gemini;
  instruction : string;
  tools : list tool
}.

(** A runner object: [ident] is the identity of the allocated object, so
    two runners built from the same arguments are still two runners. *)
Record InMemoryRunner : Type := {
  ident : nat;
  agent : LlmAgent;
  app_name : string
}.

(** ** Events of a turn: capability-probed objects

    The attributes the aggregation probes are [text] on an event and on a
    part, [content] on an event and [parts] on a content. An attribute is
    absent ([hasattr] is false), [None], or holds a value. *)

Inductive field (A : Type) : Type :=
| Absent
| IsNone
| Val (a : A).
Arguments Absent {A}.
Arguments IsNone {A}.
Arguments Val {A} a.

Definition hasattr {A : Type} (f : field A) : bool :=
  match f with
  | Absent => false
  | _ => true
  end.

(** The truth value of a text attribute that is there: [None] and the
    empty string are false. *)
Definition truthy (f : field string) : bool :=
  match f with
  | Val (String _ _) => true
  | _ => false
  end.

Record Part : Type := { part_text : field string }.

Record Content : Type := {
  role : option string;
  parts : field (list Part)
}.

Record Event : Type := {
  text : field string;
  content : field Content
}.

(** What [run_async] yields when iterated: the events, then the end of the
    stream ([None]) or the exception the generation call raised. *)
Record Stream : Type := {
  events : list Event;
  ending : option exn
}.

(** The [new_message] handed to [run_async]: a [types.Content], or the raw
    message when the construction raised (lines 216-217). *)
Inductive Message : Type :=
| Structured (c : Content)
| RawMessage (msg : json).

(** ** The process state and the outside world of a chat turn *)

Inductive call : Type :=
| CreateSession (session_id user_id app_name : string)
| RunAsync (user_id session_id : string) (new_message : Message)
| Stdout (line : string).

Record World : Type := {
  RUNNER_CACHE : gmap string InMemoryRunner;
  INITIALIZED_SESSIONS : gset string;
  next_ident : nat;        (* identity of the next allocated runner *)
  trace : list call        (* calls made so far, oldest first *)
}.

(** The ADK engine as the turn sees it: the outcome of the session-creation
    call and the stream of the generation call. *)
Record Engine : Type := {
  create_session : string → string → string → result unit;
  run_async : string → string → Message → Stream
}.

(** Computations over the process state that may raise. *)
Definition M (A : Type) : Type := World → result A * World.

Definition ret {A : Type} (a : A) : M A := fun w => (Ok a, w).

Definition bind {A B : Type} (m : M A) (k : A → M B) : M B :=
  fun w =>
    match m w with
    | (Ok a, w') => k a w'
    | (Raise e, w') => (Raise e, w')
    end.

Notation "'let*' x ':=' m 'in' k" := (bind m (fun x => k))
  (at level 10, x name, m at level 100, k at level 200).

(** [try: m except Exception as e: h e] *)
Definition try_except {A : Type} (m : M A) (h : exn → M A) : M A :=
  fun w =>
    match m w with
    | (Ok a, w') => (Ok a, w')
    | (Raise e, w') => h e w'
    end.

Definition lift {A : Type} (r : result A) : M A := fun w => (r, w).

Definition emit (c : call) : M unit :=
  fun w => (Ok tt, {| RUNNER_CACHE := RUNNER_CACHE w;
                      INITIALIZED_SESSIONS := INITIALIZED_SESSIONS w;
                      next_ident := next_ident w;
                      trace := trace w ++ [c] |}).

(** [RUNNER_CACHE[session_id] = runner] *)
Definition cache_runner (session_id : string) (runner : InMemoryRunner) : M unit :=
  fun w => (Ok tt, {| RUNNER_CACHE := <[session_id := runner]> (RUNNER_CACHE w);
                      INITIALIZED_SESSIONS := INITIALIZED_SESSIONS w;
                      next_ident := next_ident w;
                      trace := trace w |}).

(** [INITIALIZED_SESSIONS.add(session_id)] *)
Definition add_initialized (session_id : string) : M unit :=
  fun w => (Ok tt, {| RUNNER_CACHE := RUNNER_CACHE w;
                      INITIALIZED_SESSIONS := {[session_id]} ∪ INITIALIZED_SESSIONS w;
                      next_ident := next_ident w;
                      trace := trace w |}).

(** Allocation of a fresh object identity. *)
Definition fresh : M nat :=
  fun w => (Ok (next_ident w),
            {| RUNNER_CACHE := RUNNER_CACHE w;
               INITIALIZED_SESSIONS := INITIALIZED_SESSIONS w;
               next_ident := S (next_ident w);
               trace := trace w |}).

(** Lines 113-123: the agent and the runner built for a knowledge level. *)
Definition build_runner (oid : nat) (user_level : string) : InMemoryRunner :=
  let retry := {| attempts := 3 |} in
  let model := {| model := "models/gemini-2.5-pro"; retry_options := retry |} in
  let agent := {| name := "coach";
                  agent_model := model;
                  instruction := get_system_prompt user_level;
                  tools := [tool_get_usage_stats; tool_get_sample_teams] |} in
  {| ident := oid; agent := agent; app_name := APP_NAME |}.

Definition get_runner (session_id user_level : string) : M InMemoryRunner :=
  fun w =>
    match RUNNER_CACHE w !! session_id with
    | Some runner => (Ok runner, w)
    | None =>
        (let* oid := fresh in
         let runner := build_runner oid user_level in
         let* _ := cache_runner session_id runner in
         ret runner) w
    end.

(** ** The chat turn (lines 193-230) *)

(** Lines 202-213: the session is created once per [session_id]; whether
    the creation returns or raises, the id is added to
    [INITIALIZED_SESSIONS]. *)
Definition ensure_session (eng : Engine) (session_id : string) : M unit :=
  fun w =>
    if decide (session_id ∈ INITIALIZED_SESSIONS w) then (Ok tt, w)
    else
      try_except
        (let* _ := emit (CreateSession session_id "web_user" APP_NAME) in
         let* _ := lift (create_session eng session_id "web_user" APP_NAME) in
         add_initialized session_id)
        (fun e =>
           let* _ := add_initialized session_id in
           emit (Stdout ("Session init info: " +:+ str_exn e))) w.

(** [types.Part(text=msg)]: the text of a part is a [str] or [None]; any
    other JSON value of the request is refused by the constructor. *)
Definition make_part (msg : json) : result Part :=
  match msg with
  | JStr s => Ok {| part_text := Val s |}
  | JNull => Ok {| part_text := IsNone |}
  | _ => Raise (Exn "ValidationError" "text: input should be a valid string")
  end.

(** [types.Content(role="user", parts=[types.Part(text=msg)])] *)
Definition user_content (msg : json) : result Content :=
  do p <~ make_part msg;
  Ok {| role := Some "user"; parts := Val [p] |}.

(** Lines 216-217. *)
Definition new_message (msg : json) : Message :=
  match user_content msg with
  | Ok c => Structured c
  | Raise _ => RawMessage msg
  end.

Definition DQ : string := String (ascii_of_nat 34) EmptyString.

Definition no_parts_attribute : exn :=
  Exn "AttributeError" "object has no attribute 'parts'".
Definition not_iterable : exn :=
  Exn "TypeError" "'NoneType' object is not iterable".
Definition cannot_concatenate : exn :=
  Exn "TypeError"
      ("can only concatenate str (not " +:+ DQ +:+ "NoneType" +:+ DQ +:+ ") to str").

(** Lines 225-226, the loop over the parts: the accumulator when the loop
    stops, and the exception that stopped it, if any. *)
Fixpoint add_parts (final : string) (ps : list Part) : string * option exn :=
  match ps with
  | [] => (final, None)
  | p :: ps' =>
      if hasattr (part_text p) then
        match part_text p with
        | Val s => add_parts (final +:+ s) ps'
        | _ => (final, Some cannot_concatenate)
        end
      else add_parts final ps'
  end.

(** Lines 223-226, the body of the inner [try]: the accumulator it leaves
    and the exception it raised, if any. *)
Definition inspect (final : string) (event : Event) : string * option exn :=
  if hasattr (text event) && truthy (text event) then
    match text event with
    | Val s => (s, None)
    | _ => (final, None)
    end
  else if hasattr (content event) then
    match content event with
    | Val c =>
        match parts c with
        | Val ps => add_parts final ps
        | IsNone => (final, Some not_iterable)
        | Absent => (final, Some no_parts_attribute)
        end
    | _ => (final, Some no_parts_attribute)
    end
  else (final, None).

(** Lines 222-227: [try: ... except: continue]. *)
Definition step (final : string) (event : Event) : string :=
  fst (inspect final event).

Definition aggregate_from (final : string) (evs : list Event) : string :=
  fold_left step evs final.

(** The response aggregation of one turn: [final = ""], then the loop. *)
Definition aggregate (evs : list Event) : string :=
  aggregate_from "" evs.

(** Lines 219-227 run over a stream: the loop ends with the accumulator, or
    with the exception the generation call raised. *)
Definition consume (s : Stream) : result string :=
  let final := aggregate (events s) in
  match ending s with
  | None => Ok final
  | Some e => Raise e
  end.

Definition jsonify_response (final : string) : json :=
  JObj [("response", JStr final)].

Definition jsonify_error (message : string) : json :=
  JObj [("error", JStr message)].

(** [chat]: [msg] is [request.json.get('message')], [JNull] when the body
    has no message. *)
Definition chat (eng : Engine) (current_user : User) (msg : json) : M json :=
  let session_id := "session_" +:+ user_id current_user in
  let* runner := get_runner session_id (knowledge_level current_user) in
  let* _ := ensure_session eng session_id in
  let content := new_message msg in
  try_except
    (let* _ := emit (RunAsync "web_user" session_id content) in
     let* final := lift (consume (run_async eng "web_user" session_id content)) in
     ret (jsonify_response final))
    (fun e => ret (jsonify_error (str_exn e))).

(** Number of generation calls in a trace. *)
Definition is_run_async (c : call) : bool :=
  match c with
  | RunAsync _ _ _ => true
  | _ => false
  end.

Definition generation_calls (t : list call) : nat :=
  length (List.filter is_run_async t).

(** ** Shapes of events used to state the properties *)

Definition text_part (s : string) : Part := {| part_text := Val s |}.

(** An event that carries only structured content: no [text] attribute, a
    content whose parts all bear text. *)
Definition structured_event (texts : list string) : Event :=
  {| text := Absent;
     content := Val {| role := Some "model"; parts := Val (map text_part texts) |} |}.

(** An event that exposes the plain text [s]. *)
Definition plain_text_event (s : string) (c : field Content) : Event :=
  {| text := Val s; content := c |}.

(** An event with neither attribute. *)
Definition unrecognized_event : Event :=
  {| text := Absent; content := Absent |}.

(** Concatenation of strings in order. *)
Definition concat_texts (l : list string) : string :=
  fold_right String.append EmptyString l.

(** The texts of the parts the loop appends: parts without a [text]
    attribute are passed over. *)
Fixpoint appended_texts (ps : list Part) : string :=
  match ps with
  | [] => EmptyString
  | p :: ps' =>
      match part_text p with
      | Val s => s +:+ appended_texts ps'
      | _ => appended_texts ps'
      end
  end.

(** An event carries only structured content with the part texts [texts]:
    it has no [text] attribute, and its content holds exactly these
    text-bearing parts, in order. *)
Definition only_structured (e : Event) (texts : list string) : Prop :=
  text e = Absent ∧
  ∃ c, content e = Val c ∧ parts c = Val (map text_part texts).

(** A fault raised while an event is inspected, with the text the loop had
    appended to the accumulator before it: the content is [None], the
    content has no parts or its parts are [None] (nothing appended), or a
    part's text is [None] (the texts of the parts before it were appended). *)
Inductive fault_keeps (event : Event) : string → Prop :=
| fault_content_none :
    content event = IsNone → fault_keeps event ""
| fault_parts_absent c :
    content event = Val c → parts c = Absent → fault_keeps event ""
| fault_parts_none c :
    content event = Val c → parts c = IsNone → fault_keeps event ""
| fault_part_text_none c before p after :
    content event = Val c → parts c = Val (before ++ p :: after) →
    part_text p = IsNone →
    Forall (fun q => part_text q ≠ IsNone) before →
    fault_keeps event (appended_texts before).

(** ** Shapes of tool calls used to state the properties *)

(** The ways the outbound call of a tool fails: [requests.get] raises, the
    status is an error status (4xx or 5xx), or the body is not JSON. *)
Inductive call_fails : result Response → Prop :=
| fails_network (e : exn) : call_fails (Raise e)
| fails_status (r : Response) :
    400 ≤ status_code r < 600 → call_fails (Ok r)
| fails_json (r : Response) :
    json_body r = None → call_fails (Ok r).

(** A 300 answer that carries a JSON object. *)
Definition multiple_choices : string → result Response :=
  fun _ => Ok {| status_code := 300;
                 json_body := Some (JObj [("Great Tusk", JNull); ("Kingambit", JNull)]) |}.

(** ** Accounts: the users collection, the session and the routes
       (lines 46-62 and 127-191)

    The MongoDB collection [users_collection] is the list of its documents in
    insertion order. A document keeps its string-valued fields ([_id] in the
    string form of its ObjectId, [username], [password], [knowledge_level])
    in a map, which is what [User.__init__] reads, and its two other fields
    apart. A [datetime] is the number of microseconds after [datetime.min]. *)

Record Team : Type := {
  team_oid : string;          (* '_id' *)
  team_title : json;          (* 'title' *)
  team_format : json;         (* 'format' *)
  team_data : json;           (* 'team_data' *)
  team_date : option N        (* 'date'; [None]: the key is missing *)
}.

Record UserDoc : Type := {
  doc_fields : gmap string string;
  doc_created_at : option N;
  doc_teams : option (list Team)   (* [None]: the document has no 'teams' *)
}.

(** What a request leaves behind: the collection, and for the one client
    whose requests are followed the user id flask-login keeps in its session
    and the messages flashed to it. *)
Record Site : Type := {
  users_collection : list UserDoc;
  session_uid : option string;
  flashed : list string
}.

Record Request : Type := {
  req_method : string;
  req_form : gmap string string;
  req_json : result json            (* [request.json] *)
}.

Inductive Reply : Type :=
| Redirect (endpoint : string)                 (* [redirect(url_for(endpoint))] *)
| Render (template : string) (user : option User) (teams : option (list Team))
| Jsonify (body : json)
| Unauthorized.   (* the redirect to the login view, with the refused URL
                     as [next], that [login_manager.unauthorized()] returns *)

(** Computations over a state [S] that may raise. *)
Definition ST (S A : Type) : Type := S → result A * S.

Definition st_ret {S A : Type} (a : A) : ST S A := fun s => (Ok a, s).

Definition st_bind {S A B : Type} (m : ST S A) (k : A → ST S B) : ST S B :=
  fun s =>
    match m s with
    | (Ok a, s') => k a s'
    | (Raise e, s') => (Raise e, s')
    end.

Definition st_lift {S A : Type} (r : result A) : ST S A := fun s => (r, s).

Notation "'let+' x ':=' m 'in' k" := (st_bind m (fun x => k))
  (at level 10, x name, m at level 100, k at level 200).

(** [request.form[key]] *)
Definition form_get (req : Request) (key : string) : result string :=
  match req_form req !! key with
  | Some v => Ok v
  | None => Raise (Exn "BadRequestKeyError" key)
  end.

Fixpoint assoc_get (key : string) (members : list (string * json)) : option json :=
  match members with
  | [] => None
  | (k, v) :: rest => if String.eqb k key then Some v else assoc_get key rest
  end.

(** [data.get(key, default)] on a parsed JSON value: only a dict has [get]. *)
Definition json_get (data : json) (key : string) (dflt : json) : result json :=
  match data with
  | JObj members => Ok (default dflt (assoc_get key members))
  | _ => Raise (Exn "AttributeError" "object has no attribute 'get'")
  end.

(** [chat] from its first line: line 196 reads the message off the request
    body, outside every [try], so a body that cannot be read or that is not a
    JSON object raises before anything else is done; lines 197-230 follow. *)
Definition chat_request (eng : Engine) (current_user : User) (req : Request)
  : M json :=
  let* data := lift (req_json req) in
  let* msg := lift (json_get data "message" JNull) in
  chat eng current_user msg.

(** The equality filter [{field: value}] on a string field. *)
Definition has_field (field value : string) (d : UserDoc) : bool :=
  bool_decide (doc_fields d !! field = Some value).

(** [users_collection.find_one(filter)] *)
Definition find_one (filter : UserDoc → bool) (users : list UserDoc) : option UserDoc :=
  List.find filter users.

(** [users_collection.insert_one(doc)]: the collection refuses a second
    document with the same [_id]. *)
Definition insert_one (oid : string) (d : UserDoc) : ST Site unit :=
  fun s =>
    match find_one (has_field "_id" oid) (users_collection s) with
    | Some _ => (Raise (Exn "DuplicateKeyError" oid), s)
    | None =>
        (Ok tt, {| users_collection := users_collection s ++ [d];
                   session_uid := session_uid s;
                   flashed := flashed s |})
    end.

Definition push_to (t : Team) (d : UserDoc) : UserDoc :=
  {| doc_fields := doc_fields d;
     doc_created_at := doc_created_at d;
     doc_teams := Some (default [] (doc_teams d) ++ [t]) |}.

(** [update_one(filter, {"$push": {"teams": t}})] on the documents: the
    first match gets [t] appended to its teams, no match changes nothing. *)
Fixpoint push_team (filter : UserDoc → bool) (t : Team) (users : list UserDoc)
  : list UserDoc :=
  match users with
  | [] => []
  | d :: rest =>
      if filter d then push_to t d :: rest
      else d :: push_team filter t rest
  end.

Definition update_one_push (filter : UserDoc → bool) (t : Team) : ST Site unit :=
  fun s => (Ok tt, {| users_collection := push_team filter t (users_collection s);
                      session_uid := session_uid s;
                      flashed := flashed s |}).

(** [flash(message)] *)
Definition flash (message : string) : ST Site unit :=
  fun s => (Ok tt, {| users_collection := users_collection s;
                      session_uid := session_uid s;
                      flashed := flashed s ++ [message] |}).

(** [login_user(user)]: the session remembers the user's id. *)
Definition login_user (user : User) : ST Site unit :=
  fun s => (Ok tt, {| users_collection := users_collection s;
                      session_uid := Some (user_id user);
                      flashed := flashed s |}).

(** [logout_user()] *)
Definition logout_user : ST Site unit :=
  fun s => (Ok tt, {| users_collection := users_collection s;
                      session_uid := None;
                      flashed := flashed s |}).

Definition get_users : ST Site (list UserDoc) :=
  fun s => (Ok (users_collection s), s).

(** [teams.sort(key=lambda x: x.get('date', datetime.min), reverse=True)]:
    [list.sort] is stable, also with [reverse=True], so the sorted list is
    the one a stable insertion gives. *)
Definition date_key (t : Team) : N := default 0%N (team_date t).

Fixpoint insert_desc (x : Team) (l : list Team) : list Team :=
  match l with
  | [] => [x]
  | y :: l' =>
      if (date_key x <? date_key y)%N then y :: insert_desc x l'
      else x :: l
  end.

Definition sort_desc (l : list Team) : list Team :=
  fold_right insert_desc [] l.

Section Accounts.

(** [ObjectId(s)] in its string form, or the [InvalidId] it raises. *)
Variable ObjectId : string → result string.
(** [bcrypt.generate_password_hash(password).decode('utf-8')] *)
Variable generate_password_hash : string → result string.
(** [bcrypt.check_password_hash(pw_hash, password)] *)
Variable check_password_hash : string → string → result bool.

(** [ObjectId.is_valid(oid)]: false for an empty value, else whether
    [ObjectId(oid)] can be built. *)
Definition is_valid (oid : string) : bool :=
  if String.eqb oid "" then false
  else match ObjectId oid with
       | Ok _ => true
       | Raise _ => false
       end.

(** The [try] body of [User.get] (lines 55-57). *)
Definition User_get_try (users : list UserDoc) (user_id : string)
  : result (option User) :=
  if negb (is_valid user_id) then Ok None
  else
    do oid <~ ObjectId user_id;
    match find_one (has_field "_id" oid) users with
    | Some data => do user <~ User_init (doc_fields data); Ok (Some user)
    | None => Ok None
    end.

(** [User.get] (lines 52-58) *)
Definition User_get (users : list UserDoc) (user_id : string) : option User :=
  match User_get_try users user_id with
  | Ok r => r
  | Raise _ => None
  end.

(** [load_user] (lines 60-62) *)
Definition load_user (users : list UserDoc) (user_id : string) : option User :=
  User_get users user_id.

(** [current_user]: the user the loader finds for the id in the session. *)
Definition current_user_of (s : Site) : option User :=
  match session_uid s with
  | Some uid => load_user (users_collection s) uid
  | None => None
  end.

(** [@login_required]: without a logged-in user the view is not run;
    [login_manager.unauthorized()], whose [login_view] is set (line 44),
    flashes flask-login's login message and redirects to the login view. *)
Definition login_required (route : User → ST Site Reply) : ST Site Reply :=
  fun s =>
    match current_user_of s with
    | Some user => route user s
    | None =>
        (let+ _ := flash "Please log in to access this page." in
         st_ret Unauthorized) s
    end.

(** [landing] (lines 128-129) *)
Definition landing : ST Site Reply :=
  st_ret (Render "landing.html" None None).

(** The user document [register] inserts (lines 139-145). *)
Definition new_user_doc (oid username hashed level : string) (now : N) : UserDoc :=
  {| doc_fields := {[ "_id" := oid; "username" := username;
                      "password" := hashed; "knowledge_level" := level ]};
     doc_created_at := Some now;
     doc_teams := Some [] |}.

(** [User(users_collection.find_one(...))]: subscripting [None] raises. *)
Definition User_of_found (found : option UserDoc) : result User :=
  match found with
  | Some data => User_init (doc_fields data)
  | None => Raise (Exn "TypeError" "'NoneType' object is not subscriptable")
  end.

(** [register] (lines 131-148); [now] is [datetime.utcnow()] and [oid] the
    ObjectId the driver gives the inserted document. *)
Definition register (now : N) (oid : string) (req : Request) : ST Site Reply :=
  if String.eqb (req_method req) "POST" then
    let+ username := st_lift (form_get req "username") in
    let+ users := get_users in
    match find_one (has_field "username" username) users with
    | Some _ =>
        let+ _ := flash "Username taken." in
        st_ret (Redirect "register")
    | None =>
        let+ password := st_lift (form_get req "password") in
        let+ hashed := st_lift (generate_password_hash password) in
        let+ level := st_lift (form_get req "level") in
        let+ _ := insert_one oid (new_user_doc oid username hashed level now) in
        let+ users' := get_users in
        let+ user := st_lift (User_of_found
                               (find_one (has_field "username" username) users')) in
        let+ _ := login_user user in
        st_ret (Redirect "chat_app")
    end
  else st_ret (Render "register.html" None None).

(** [user['password']] *)
Definition doc_password (d : UserDoc) : result string :=
  match doc_fields d !! "password" with
  | Some h => Ok h
  | None => Raise (Exn "KeyError" "'password'")
  end.

(** [login] (lines 150-158) *)
Definition login (req : Request) : ST Site Reply :=
  if String.eqb (req_method req) "POST" then
    let+ username := st_lift (form_get req "username") in
    let+ users := get_users in
    let invalid :=
      let+ _ := flash "Invalid credentials" in
      st_ret (Render "login.html" None None) in
    match find_one (has_field "username" username) users with
    | Some user =>
        let+ pw_hash := st_lift (doc_password user) in
        let+ password := st_lift (form_get req "password") in
        let+ matches := st_lift (check_password_hash pw_hash password) in
        if matches : bool then
          let+ u := st_lift (User_init (doc_fields user)) in
          let+ _ := login_user u in
          st_ret (Redirect "chat_app")
        else invalid
    | None => invalid
    end
  else st_ret (Render "login.html" None None).

(** [logout] (lines 160-162) *)
Definition logout : ST Site Reply :=
  login_required (fun _ =>
    let+ _ := logout_user in
    st_ret (Redirect "landing")).

(** [chat_app] (lines 164-166) *)
Definition chat_app : ST Site Reply :=
  login_required (fun user => st_ret (Render "chat.html" (Some user) None)).

(** The body of [profile] (lines 171-174) for the logged-in user. *)
Definition profile_of (current_user : User) : ST Site Reply :=
  let+ oid := st_lift (ObjectId (user_id current_user)) in
  let+ users := get_users in
  match find_one (has_field "_id" oid) users with
  | Some user_data =>
      let teams := default [] (doc_teams user_data) in
      st_ret (Render "profile.html" (Some current_user) (Some (sort_desc teams)))
  | None => st_lift (Raise (Exn "AttributeError"
                                "'NoneType' object has no attribute 'get'"))
  end.

(** [profile] (lines 168-174) *)
Definition profile : ST Site Reply := login_required profile_of.

(** The body of [save_team] (lines 179-191) for the logged-in user; [now] is
    [datetime.utcnow()] and [team_id] is [str(ObjectId())]. *)
Definition save_team_of (now : N) (team_id : string) (req : Request)
    (current_user : User) : ST Site Reply :=
  let+ data := st_lift (req_json req) in
  let+ title := st_lift (json_get data "title" (JStr "Untitled")) in
  let+ fmt := st_lift (json_get data "format" (JStr "Unknown")) in
  let+ team_text := st_lift (json_get data "team_text" JNull) in
  let new_team := {| team_oid := team_id; team_title := title;
                     team_format := fmt; team_data := team_text;
                     team_date := Some now |} in
  let+ oid := st_lift (ObjectId (user_id current_user)) in
  let+ _ := update_one_push (has_field "_id" oid) new_team in
  st_ret (Jsonify (JObj [("status", JStr "success")])).

(** [save_team] (lines 176-191) *)
Definition save_team (now : N) (team_id : string) (req : Request) : ST Site Reply :=
  login_required (save_team_of now team_id req).

End Accounts.

(** ** Shapes of states used to state the further properties *)

(** The session id of a user's conversation (line 197). *)
Definition session_of (u : User) : string := "session_" +:+ user_id u.

(** A process that has served no turn yet (lines 106-107). *)
Definition fresh_world : World :=
  {| RUNNER_CACHE := ∅; INITIALIZED_SESSIONS := ∅; next_ident := 0; trace := [] |}.

(** Chat turns served one after the other, each turn ending before the
    next begins, each with what the engine does during it. *)
Definition chat_turns (turns : list (Engine * User * json)) (w : World) : World :=
  fold_left (fun w '(eng, u, msg) => snd (chat eng u msg w)) turns w.

(** The session ids of the users of a list of turns. *)
Definition sessions_of (turns : list (Engine * User * json)) : gset string :=
  list_to_set (map (fun '(_, u, _) => session_of u) turns).

(** An engine whose generation call raises after a first event, and one
    whose stream ends after two events. *)
Definition failing_engine : Engine :=
  {| create_session := fun _ _ _ => Ok tt;
     run_async := fun _ _ _ =>
       {| events := [structured_event ["Use "]];
          ending := Some (Exn "ServerError" "429 quota exceeded") |} |}.

Definition answering_engine : Engine :=
  {| create_session := fun _ _ _ => Ok tt;
     run_async := fun _ _ _ =>
       {| events := [structured_event ["Use "; "Great Tusk"]; structured_event ["."]];
          ending := None |} |}.

(** A stored user with one saved team, and a request to save another. *)
Definition red_user : User :=
  {| user_id := "65a1"; username := "red"; knowledge_level := "Beginner" |}.

Definition red_doc : UserDoc :=
  {| doc_fields := {[ "_id" := "65a1"; "username" := "red" ]};
     doc_created_at := Some 1%N;
     doc_teams := Some [ {| team_oid := "t1"; team_title := JStr "Sun";
                            team_format := JStr "gen9ou";
                            team_data := JStr "Torkoal";
                            team_date := Some 4%N |} ] |}.

Definition red_site : Site :=
  {| users_collection := [red_doc]; session_uid := Some "65a1"; flashed := [] |}.

Definition hello_request : Request :=
  {| req_method := "POST";
     req_form := ∅;
     req_json := Ok (JObj [("message", JStr "Build me a team")]) |}.

Definition list_request : Request :=
  {| req_method := "POST"; req_form := ∅; req_json := Ok (JArr []) |}.

Definition rain_request : Request :=
  {| req_method := "POST";
     req_form := ∅;
     req_json := Ok (JObj [("title", JStr "Rain"); ("team_text", JStr "Pelipper")]) |}.

(** The session-creation calls for one session id in a trace. *)
Definition is_creation (session_id : string) (c : call) : bool :=
  match c with
  | CreateSession sid _ _ => String.eqb sid session_id
  | _ => false
  end.

Definition creations (session_id : string) (t : list call) : nat :=
  length (List.filter (is_creation session_id) t).

(** The first turn of a session id in a list of turns. *)
Definition first_turn (session_id : string) (turns : list (Engine * User * json))
  : option (Engine * User * json) :=
  List.find (fun '(_, u, _) => String.eqb (session_of u) session_id) turns.

(** The usernames of a collection, in order (documents without one apart). *)
Definition usernames (users : list UserDoc) : list string :=
  omap (fun d => doc_fields d !! "username") users.

(** Every character of a string passes a test. *)
Fixpoint all_chars (p : ascii → bool) (s : string) : bool :=
  match s with
  | EmptyString => true
  | String c s' => p c && all_chars p s'
  end.

(** No event of the list exposes a non-empty plain text. *)
Definition no_plain_text (evs : list Event) : Prop :=
  Forall (fun e => hasattr (text e) && truthy (text e) = false) evs.

(** Every cached runner was allocated before, and no two session ids share
    a runner object. *)
Definition cache_ok (w : World) : Prop :=
  (∀ k r, RUNNER_CACHE w !! k = Some r → (ident r < next_ident w)%nat) ∧
  (∀ k1 k2 r1 r2, RUNNER_CACHE w !! k1 = Some r1 → RUNNER_CACHE w !! k2 = Some r2 →
                  ident r1 = ident r2 → k1 = k2).

(** * Properties *)

(** ** Strings *)

Local Arguments String.append !s1 s2.

(** Runs a computation of [M] down to its result and final state. *)
Ltac run_m :=
  unfold try_except, bind, emit, lift, add_initialized, ret; simpl.

Lemma append_assoc (a b c : string) : (a +:+ b) +:+ c = a +:+ (b +:+ c).
Proof. induction a as [|x a IH]; simpl; [reflexivity | now rewrite IH]. Qed.

Lemma append_empty_r (a : string) : a +:+ "" = a.
Proof. induction a as [|x a IH]; simpl; [reflexivity | now rewrite IH]. Qed.

Lemma startswith_append (p s : string) : PyStr.startswith p (p +:+ s) = true.
Proof.
  induction p as [|a p IH]; simpl; [reflexivity |].
  now rewrite Ascii.eqb_refl, IH.
Qed.

Lemma startswith_inv (p s : string) :
  PyStr.startswith p s = true → ∃ post, s = p +:+ post.
Proof.
  revert s. induction p as [|a p IH]; intros s H.
  - exists s. reflexivity.
  - destruct s as [|b s]; simpl in H; [discriminate |].
    apply andb_true_iff in H as [Hab Hrest].
    apply Ascii.eqb_eq in Hab. subst b.
    destruct (IH _ Hrest) as [post ->].
    exists post. reflexivity.
Qed.

Lemma contains_unfold (sub s : string) :
  PyStr.contains sub s =
  PyStr.startswith sub s ||
  match s with
  | EmptyString => false
  | String _ s' => PyStr.contains sub s'
  end.
Proof. destruct s; reflexivity. Qed.

(** [sub in s] holds exactly when [s] has [sub] as a substring. *)
Lemma contains_spec (sub s : string) :
  PyStr.contains sub s = true ↔ ∃ pre post, s = pre +:+ sub +:+ post.
Proof.
  split.
  - induction s as [|c s IH]; rewrite contains_unfold; intros H;
      apply orb_true_iff in H as [H | H].
    + apply startswith_inv in H as [post ->]. now exists "", post.
    + discriminate.
    + apply startswith_inv in H as [post ->]. now exists "", post.
    + destruct (IH H) as (pre & post & ->). now exists (String c pre), post.
  - intros (pre & post & ->).
    induction pre as [|c pre IH]; rewrite contains_unfold.
    + simpl. now rewrite startswith_append.
    + simpl. rewrite IH. apply orb_true_r.
Qed.

(** ** Tools *)

(** C6: both tools lower-case, strip and remove spaces, and both send
    " Gen 9 OU " to "gen9ou"; the alias step, however, is taken by
    [get_usage_stats] only: on "Gen 9 OU Singles" it asks for "gen9ou" while
    [get_sample_teams] asks for "gen9ousingles". *)
Theorem tools_normalize_alias_mismatch :
  usage_clean_format " Gen 9 OU " = "gen9ou" ∧
  teams_clean_format " Gen 9 OU " = "gen9ou" ∧
  usage_clean_format "Gen 9 OU Singles" = "gen9ou" ∧
  teams_clean_format "Gen 9 OU Singles" = "gen9ousingles" ∧
  teams_url "Gen 9 OU Singles" = "https://data.pkmn.cc/teams/gen9ousingles.json" ∧
  (∀ format, teams_clean_format format = normalize format).
Proof. repeat split. Qed.

(** C10: in the usage-statistics tool every input whose normalized form
    has "gen9ou" as a substring is collapsed to exactly "gen9ou": the tool
    fetches the same resource as for "gen9ou" itself, returns what it returns
    there, and names "gen9ou" in its not-found string. *)
Theorem usage_alias_collapses
    (requests_get : string → result Response) (format pre post : string) :
  normalize format = pre +:+ "gen9ou" +:+ post →
  usage_clean_format format = "gen9ou" ∧
  usage_url format = "https://data.pkmn.cc/stats/gen9ou.json" ∧
  usage_not_found format = "Stats not found for gen9ou." ∧
  get_usage_stats requests_get format = get_usage_stats requests_get "gen9ou" ∧
  (∀ e, requests_get "https://data.pkmn.cc/stats/gen9ou.json" = Raise e →
        get_usage_stats requests_get format = "Stats not found for gen9ou.").
Proof.
  intros Hsub.
  assert (Hclean : usage_clean_format format = "gen9ou").
  { unfold usage_clean_format.
    replace (PyStr.contains "gen9ou" (normalize format)) with true; [reflexivity |].
    symmetry. apply contains_spec. eauto. }
  assert (Hurl : usage_url format = "https://data.pkmn.cc/stats/gen9ou.json").
  { unfold usage_url. now rewrite Hclean. }
  assert (Hnf : usage_not_found format = "Stats not found for gen9ou.").
  { unfold usage_not_found. now rewrite Hclean. }
  repeat split; try assumption.
  - unfold get_usage_stats. rewrite Hurl, Hnf. reflexivity.
  - intros e He. unfold get_usage_stats, usage_try.
    rewrite Hurl, He, Hnf. reflexivity.
Qed.

Lemma usage_alias_collapses_witness :
  normalize "gen9oumonotype" = "" +:+ "gen9ou" +:+ "monotype" ∧
  usage_clean_format "gen9oumonotype" = "gen9ou".
Proof.
  split; [reflexivity |].
  apply (usage_alias_collapses
           (fun _ => Raise (Exn "ConnectionError" "unreachable"))
           "gen9oumonotype" "" "monotype").
  reflexivity.
Defined.

(** C7, as the code has it: when the outbound call raises, answers with a
    4xx or 5xx status, or carries a body that is not JSON, each tool returns
    its not-found string; the tools are total functions to [string], so
    nothing is raised past them. *)
Theorem tools_not_found_on_failure
    (requests_get : string → result Response) (json_dumps : json → string)
    (format : string) :
  (call_fails (requests_get (usage_url format)) →
   get_usage_stats requests_get format = usage_not_found format) ∧
  (call_fails (requests_get (teams_url format)) →
   get_sample_teams requests_get json_dumps format = teams_not_found format).
Proof.
  split; intros H; unfold get_usage_stats, usage_try, get_sample_teams, teams_try;
    inversion H as [e He | r Hst He | r Hj He]; simpl.
  all: try reflexivity.
  all: unfold raise_for_status, response_json.
  all: try (replace ((400 <=? status_code r) && (status_code r <? 600)) with true
              by (symmetry; apply andb_true_iff; split;
                  [apply Z.leb_le | apply Z.ltb_lt]; lia);
            reflexivity).
  all: rewrite Hj; destruct ((400 <=? status_code r) && (status_code r <? 600));
    reflexivity.
Qed.

(** C7, the claim as stated fails on a status that is neither 2xx nor an
    error status: a 300 answer with a JSON body is read as a success. *)
Lemma non_2xx_status_read_as_success :
  status_code {| status_code := 300;
                 json_body := Some (JObj [("Great Tusk", JNull); ("Kingambit", JNull)]) |} = 300 ∧
  get_usage_stats multiple_choices "gen9ou" = "Top 20 Usage: Great Tusk, Kingambit" ∧
  get_usage_stats multiple_choices "gen9ou" ≠ usage_not_found "gen9ou".
Proof. repeat split. discriminate. Qed.

Lemma tools_not_found_on_failure_witness :
  call_fails (Ok {| status_code := 404; json_body := None |}) ∧
  get_usage_stats (fun _ => Ok {| status_code := 404; json_body := None |}) " Gen 9 OU "
    = "Stats not found for gen9ou." ∧
  get_sample_teams (fun _ => Ok {| status_code := 404; json_body := None |})
    (fun _ => "[]") " Gen 9 OU " = "No samples for gen9ou.".
Proof.
  assert (F : call_fails (Ok {| status_code := 404; json_body := None |})).
  { apply fails_status. simpl. lia. }
  split; [exact F |].
  split;
    apply (tools_not_found_on_failure
             (fun _ => Ok {| status_code := 404; json_body := None |})
             (fun _ => "[]") " Gen 9 OU "); exact F.
Defined.

(** ** Response aggregation *)

Lemma concat_texts_app (l1 l2 : list string) :
  concat_texts (l1 ++ l2) = concat_texts l1 +:+ concat_texts l2.
Proof.
  induction l1 as [|x l1 IH]; simpl; [reflexivity |].
  now rewrite IH, append_assoc.
Qed.

Lemma add_parts_text_parts (final : string) (texts : list string) :
  add_parts final (map text_part texts) = (final +:+ concat_texts texts, None).
Proof.
  revert final. induction texts as [|t texts IH]; intros final; simpl.
  - now rewrite append_empty_r.
  - now rewrite IH, append_assoc.
Qed.

Lemma aggregate_from_app (final : string) (evs1 evs2 : list Event) :
  aggregate_from final (evs1 ++ evs2) =
  aggregate_from (aggregate_from final evs1) evs2.
Proof. unfold aggregate_from. apply fold_left_app. Qed.

Lemma step_only_structured (final : string) (e : Event) (texts : list string) :
  only_structured e texts → step final e = final +:+ concat_texts texts.
Proof.
  intros [Ht (c & Hc & Hp)]. unfold step, inspect.
  rewrite Ht, Hc, Hp. simpl. now rewrite add_parts_text_parts.
Qed.

Lemma aggregate_from_only_structured
    (evs : list Event) (tss : list (list string)) :
  Forall2 only_structured evs tss →
  ∀ final, aggregate_from final evs = final +:+ concat_texts (concat tss).
Proof.
  induction 1 as [|e texts evs tss He _ IH]; intros final.
  - simpl. now rewrite append_empty_r.
  - unfold aggregate_from in *. simpl.
    rewrite IH, (step_only_structured _ _ _ He).
    now rewrite concat_texts_app, append_assoc.
Qed.

(** C1: an event that exposes a non-empty plain text replaces the
    accumulator by that text, whatever was accumulated before it; the stream
    of a draft part followed by the plain text "final answer" aggregates to
    "final answer". *)
Theorem plain_text_replaces_accumulator
    (pre post : list Event) (e : Event) (s : string) :
  text e = Val s → s ≠ "" →
  (∀ final, step final e = s) ∧
  aggregate (pre ++ e :: post) = aggregate_from s post ∧
  aggregate [structured_event ["draft"]; plain_text_event "final answer" Absent]
    = "final answer".
Proof.
  intros Ht Hs.
  assert (Hstep : ∀ final, step final e = s).
  { intros final. unfold step, inspect. rewrite Ht.
    destruct s as [|a s]; [contradiction | reflexivity]. }
  split; [exact Hstep |]. split; [| reflexivity].
  unfold aggregate. rewrite aggregate_from_app.
  unfold aggregate_from at 1. simpl. now rewrite Hstep.
Qed.

Lemma plain_text_replaces_accumulator_witness :
  aggregate ([structured_event ["draft"]]
             ++ plain_text_event "final answer" IsNone :: [structured_event ["!"]])
  = aggregate_from "final answer" [structured_event ["!"]].
Proof.
  apply (plain_text_replaces_accumulator
           [structured_event ["draft"]] [structured_event ["!"]]
           (plain_text_event "final answer" IsNone) "final answer").
  - reflexivity.
  - discriminate.
Defined.

(** C2: a sequence of events that carry only structured content aggregates
    to the concatenation, in arrival order, of all the parts' texts; two
    events with the parts "Hello, " and "coach!" give "Hello, coach!", and
    no event gives the empty string. *)
Theorem structured_parts_concatenate
    (evs : list Event) (tss : list (list string)) :
  Forall2 only_structured evs tss →
  aggregate evs = concat_texts (concat tss) ∧
  aggregate [structured_event ["Hello, "]; structured_event ["coach!"]]
    = "Hello, coach!" ∧
  aggregate [] = "".
Proof.
  intros H. split; [| split; reflexivity].
  unfold aggregate. now rewrite (aggregate_from_only_structured _ _ H).
Qed.

Lemma structured_parts_concatenate_witness :
  aggregate [structured_event ["Use "; "Great Tusk"]; structured_event [];
             structured_event ["."]]
  = "Use Great Tusk.".
Proof.
  apply (structured_parts_concatenate
           [structured_event ["Use "; "Great Tusk"]; structured_event [];
            structured_event ["."]]
           [["Use "; "Great Tusk"]; []; ["."]]).
  repeat constructor; eexists; split; reflexivity.
Defined.

Lemma add_parts_fault (ps : list Part) :
  ∀ (final final' : string) (err : exn),
  add_parts final ps = (final', Some err) →
  ∃ before p after,
    ps = before ++ p :: after ∧ part_text p = IsNone ∧
    Forall (fun q => part_text q ≠ IsNone) before ∧
    final' = final +:+ appended_texts before.
Proof.
  induction ps as [|q ps IH]; intros final final' err H; simpl in H.
  - discriminate.
  - destruct (part_text q) as [| |s] eqn:Hq; simpl in H.
    + destruct (IH _ _ _ H) as (before & p & after & -> & Hp & Hall & ->).
      exists (q :: before), p, after. simpl. rewrite Hq.
      repeat split; try assumption. constructor; [congruence | assumption].
    + inversion H; subst. exists [], q, ps. simpl.
      rewrite append_empty_r. repeat split; [assumption | constructor].
    + destruct (IH _ _ _ H) as (before & p & after & -> & Hp & Hall & ->).
      exists (q :: before), p, after. simpl. rewrite Hq, append_assoc.
      repeat split; try assumption. constructor; [congruence | assumption].
Qed.

Lemma inspect_fault (final final' : string) (event : Event) (err : exn) :
  inspect final event = (final', Some err) →
  ∃ kept, fault_keeps event kept ∧ final' = final +:+ kept.
Proof.
  unfold inspect. intros H.
  destruct (hasattr (text event) && truthy (text event)).
  { destruct (text event); discriminate. }
  destruct (content event) as [| |c] eqn:Hc; simpl in H.
  - discriminate.
  - inversion H; subst. exists "". rewrite append_empty_r.
    split; [now apply fault_content_none | reflexivity].
  - destruct (parts c) as [| |ps] eqn:Hp.
    + inversion H; subst. exists "". rewrite append_empty_r.
      split; [now apply (fault_parts_absent _ c) | reflexivity].
    + inversion H; subst. exists "". rewrite append_empty_r.
      split; [now apply (fault_parts_none _ c) | reflexivity].
    + apply add_parts_fault in H
        as (before & p & after & -> & Hnone & Hall & ->).
      exists (appended_texts before).
      split; [now apply (fault_part_text_none _ c before p after) | reflexivity].
Qed.

(** C3, the claim as stated fails: an event whose second part has a [None]
    text raises while it is inspected, and the accumulator has by then taken
    the text of the first part. *)
Lemma fault_after_first_part_changes_accumulator :
  inspect "Team: "
    {| text := Absent;
       content := Val {| role := Some "model";
                         parts := Val [ {| part_text := Val "Let me check." |};
                                        {| part_text := IsNone |} ] |} |}
  = ("Team: Let me check.", Some cannot_concatenate) ∧
  step "Team: "
    {| text := Absent;
       content := Val {| role := Some "model";
                         parts := Val [ {| part_text := Val "Let me check." |};
                                        {| part_text := IsNone |} ] |} |}
  ≠ "Team: ".
Proof. split; [reflexivity | discriminate]. Qed.

(** C3, as the code has it: an error raised while an event is inspected is
    swallowed and the rest of that event is skipped; the accumulator keeps
    what the event had appended before the fault (nothing, unless the fault
    is a part without text that follows text-bearing parts), the loop goes on
    with the next event, and the stream is consumed to its end. *)
Theorem event_fault_is_swallowed
    (pre rest : list Event) (event : Event) (final' : string) (err : exn) :
  inspect (aggregate pre) event = (final', Some err) →
  step (aggregate pre) event = final' ∧
  (∃ kept, fault_keeps event kept ∧ final' = aggregate pre +:+ kept) ∧
  aggregate (pre ++ event :: rest) = aggregate_from final' rest ∧
  consume {| events := pre ++ event :: rest; ending := None |}
    = Ok (aggregate_from final' rest).
Proof.
  intros H.
  assert (Hstep : step (aggregate pre) event = final').
  { unfold step. now rewrite H. }
  assert (Hagg : aggregate (pre ++ event :: rest) = aggregate_from final' rest).
  { unfold aggregate at 1. rewrite aggregate_from_app.
    fold (aggregate pre). unfold aggregate_from at 1. simpl.
    now rewrite Hstep. }
  repeat split.
  - exact Hstep.
  - exact (inspect_fault _ _ _ _ H).
  - exact Hagg.
  - unfold consume. simpl. now rewrite Hagg.
Qed.

Lemma event_fault_is_swallowed_witness :
  aggregate ([structured_event ["Team: "]]
             ++ {| text := Absent; content := IsNone |}
             :: [structured_event ["Great Tusk"]])
  = aggregate_from "Team: " [structured_event ["Great Tusk"]].
Proof.
  apply (event_fault_is_swallowed
           [structured_event ["Team: "]] [structured_event ["Great Tusk"]]
           {| text := Absent; content := IsNone |} "Team: " no_parts_attribute).
  reflexivity.
Defined.

(** ** Runner cache *)

(** C4: two calls of [get_runner] for one session id return the same runner
    object, whatever the two tiers: the second call finds the cached entry and
    leaves the cache as it is; the tier shapes the runner only when the first
    call creates it. *)
Theorem get_runner_twice_same_runner
    (session_id tier1 tier2 : string) (w : World) :
  ∃ runner w1,
    get_runner session_id tier1 w = (Ok runner, w1) ∧
    get_runner session_id tier2 w1 = (Ok runner, w1) ∧
    RUNNER_CACHE w1 !! session_id = Some runner ∧
    (RUNNER_CACHE w !! session_id = None →
     runner = build_runner (next_ident w) tier1) ∧
    (∀ cached, RUNNER_CACHE w !! session_id = Some cached →
     runner = cached ∧ w1 = w).
Proof.
  unfold get_runner.
  destruct (RUNNER_CACHE w !! session_id) as [cached|] eqn:Hw.
  - exists cached, w. rewrite Hw.
    repeat split; try reflexivity; try congruence.
  - eexists _, _. split; [reflexivity |]. simpl.
    rewrite lookup_insert_eq.
    repeat split; try reflexivity; discriminate.
Qed.

(** ** Session initialisation *)

(** C5: the session-initialisation step returns normally for every outcome
    of the creation call, the session id is in [INITIALIZED_SESSIONS] after
    the first call, and a second call returns normally too, leaving the state
    as it is. *)
Theorem ensure_session_never_raises
    (eng1 eng2 : Engine) (session_id : string) (w : World) :
  ∃ w1,
    ensure_session eng1 session_id w = (Ok tt, w1) ∧
    session_id ∈ INITIALIZED_SESSIONS w1 ∧
    ensure_session eng2 session_id w1 = (Ok tt, w1).
Proof.
  unfold ensure_session at 1.
  destruct (decide (session_id ∈ INITIALIZED_SESSIONS w)) as [Hin | Hout].
  - exists w. repeat split; [assumption |].
    unfold ensure_session. now rewrite decide_True.
  - run_m.
    destruct (create_session eng1 session_id "web_user" APP_NAME) as [[]|e];
      simpl; eexists; (split; [reflexivity |]); simpl;
      (split; [set_solver |]);
      unfold ensure_session; simpl; rewrite decide_True by set_solver;
      reflexivity.
Qed.

(** The creation call raising is one of the outcomes covered above: the id
    is marked, the failure is printed, nothing is raised. *)
Example ensure_session_creation_raises :
  let eng := {| create_session := fun _ _ _ => Raise (Exn "ValueError" "Session already exists");
                run_async := fun _ _ _ => {| events := []; ending := None |} |} in
  let w := {| RUNNER_CACHE := ∅; INITIALIZED_SESSIONS := ∅;
              next_ident := 0; trace := [] |} in
  fst (ensure_session eng "session_1" w) = Ok tt ∧
  "session_1" ∈ INITIALIZED_SESSIONS (snd (ensure_session eng "session_1" w)) ∧
  trace (snd (ensure_session eng "session_1" w))
    = [CreateSession "session_1" "web_user" "agents";
       Stdout "Session init info: Session already exists"].
Proof.
  cbv zeta. unfold ensure_session. rewrite decide_False by set_solver.
  simpl. repeat split; set_solver.
Qed.

(** ** The chat turn *)

Lemma generation_calls_snoc (t : list call) (c : call) :
  generation_calls (t ++ [c]) =
  (generation_calls t + if is_run_async c then 1 else 0)%nat.
Proof.
  unfold generation_calls. rewrite List.filter_app, length_app. simpl.
  destruct (is_run_async c); reflexivity.
Qed.

Lemma ensure_session_generation_calls
    (eng : Engine) (session_id : string) (w : World) :
  ∃ w1, ensure_session eng session_id w = (Ok tt, w1) ∧
        generation_calls (trace w1) = generation_calls (trace w).
Proof.
  unfold ensure_session.
  destruct (decide (session_id ∈ INITIALIZED_SESSIONS w)).
  - now exists w.
  - run_m.
    destruct (create_session eng session_id "web_user" APP_NAME) as [[]|e];
      simpl; eexists; (split; [reflexivity |]); simpl;
      rewrite ?generation_calls_snoc; simpl; lia.
Qed.

Lemma get_runner_trace (session_id tier : string) (w : World) :
  ∃ runner w1, get_runner session_id tier w = (Ok runner, w1) ∧
               trace w1 = trace w.
Proof.
  unfold get_runner. destruct (RUNNER_CACHE w !! session_id) as [r|].
  - now exists r, w.
  - eexists _, _. split; reflexivity.
Qed.

(** C8: when the generation call raises, the turn returns the one error
    result, the JSON object whose "error" member is the exception's message;
    otherwise it returns the success result, the JSON object whose "response"
    member is the aggregated text; either way the generation call is made
    exactly once. *)
Theorem chat_generation_outcome
    (eng : Engine) (current_user : User) (msg : json) (w : World) :
  let session_id := "session_" +:+ user_id current_user in
  let stream := run_async eng "web_user" session_id (new_message msg) in
  ∃ w',
    chat eng current_user msg w =
      (Ok match ending stream with
          | Some e => JObj [("error", JStr (exn_text e))]
          | None => JObj [("response", JStr (aggregate (events stream)))]
          end, w') ∧
    generation_calls (trace w') = S (generation_calls (trace w)).
Proof.
  intros session_id stream. unfold chat. fold session_id.
  destruct (get_runner_trace session_id (knowledge_level current_user) w)
    as (runner & w1 & Hrun & Htr1).
  destruct (ensure_session_generation_calls eng session_id w1)
    as (w2 & Hens & Htr2).
  unfold bind at 1. rewrite Hrun.
  unfold bind at 1. rewrite Hens.
  unfold consume. run_m. fold stream.
  destruct (ending stream) as [e|]; simpl;
    eexists; (split; [reflexivity |]); simpl;
    rewrite generation_calls_snoc, Htr2, Htr1; simpl; lia.
Qed.

Lemma chat_generation_outcome_witness :
  fst (chat failing_engine red_user (JStr "Build me a team") fresh_world)
    = Ok (JObj [("error", JStr "429 quota exceeded")]) ∧
  fst (chat answering_engine red_user (JStr "Build me a team") fresh_world)
    = Ok (JObj [("response", JStr "Use Great Tusk.")]).
Proof.
  split.
  - pose proof (chat_generation_outcome
                  failing_engine red_user (JStr "Build me a team") fresh_world) as H.
    cbv zeta in H. destruct H as (w' & H & _). rewrite H. reflexivity.
  - pose proof (chat_generation_outcome
                  answering_engine red_user (JStr "Build me a team") fresh_world) as H.
    cbv zeta in H. destruct H as (w' & H & _). rewrite H. reflexivity.
Defined.

(** ** Tier and system instruction *)

Lemma base_prompt_not_beginner : base_prompt ≠ get_system_prompt "Beginner".
Proof.
  intros H. apply (f_equal String.length) in H. vm_compute in H. discriminate.
Qed.

Lemma get_system_prompt_other (tier : string) :
  tier ≠ "Beginner" → tier ≠ "Expert" → get_system_prompt tier = base_prompt.
Proof.
  intros Hb He. unfold get_system_prompt.
  apply String.eqb_neq in Hb. apply String.eqb_neq in He.
  now rewrite Hb, He.
Qed.

(** C9, the claim as stated fails: the tier "Novice" is none of Beginner,
    Intermediate, Expert, and the agent built for it does not get the
    Beginner instruction. *)
Lemma unknown_tier_not_beginner_instruction :
  "Novice" ≠ "Beginner" ∧ "Novice" ≠ "Intermediate" ∧ "Novice" ≠ "Expert" ∧
  instruction (agent (build_runner 0 "Novice")) ≠
  instruction (agent (build_runner 0 "Beginner")).
Proof.
  split; [discriminate |]. split; [discriminate |]. split; [discriminate |].
  simpl. rewrite get_system_prompt_other by discriminate.
  apply base_prompt_not_beginner.
Qed.

(** C9, as the code has it: the tier defaults to Beginner when it is unset,
    that is when the user record has no knowledge level, and the agent of
    such a user gets the Beginner instruction; a tier that is neither
    'Beginner' nor 'Expert' is kept as it is, and the agent built for it gets
    the base instruction without a tier suffix, which is not the Beginner
    instruction. *)
Theorem tier_default_only_when_unset :
  (∀ (user_dict : gmap string string) (i u : string) (oid : nat),
     user_dict !! "_id" = Some i →
     user_dict !! "username" = Some u →
     user_dict !! "knowledge_level" = None →
     ∃ user, User_init user_dict = Ok user ∧
             knowledge_level user = "Beginner" ∧
             instruction (agent (build_runner oid (knowledge_level user)))
               = get_system_prompt "Beginner") ∧
  (∀ (user_dict : gmap string string) (i u tier : string),
     user_dict !! "_id" = Some i →
     user_dict !! "username" = Some u →
     user_dict !! "knowledge_level" = Some tier →
     ∃ user, User_init user_dict = Ok user ∧ knowledge_level user = tier) ∧
  (∀ (tier : string) (oid : nat),
     tier ≠ "Beginner" → tier ≠ "Expert" →
     instruction (agent (build_runner oid tier)) = base_prompt ∧
     instruction (agent (build_runner oid tier)) ≠ get_system_prompt "Beginner").
Proof.
  split; [| split].
  - intros user_dict i u oid Hi Hu Hk. unfold User_init.
    rewrite Hi, Hu, Hk. eexists. repeat split.
  - intros user_dict i u tier Hi Hu Hk. unfold User_init.
    rewrite Hi, Hu, Hk. eexists. repeat split.
  - intros tier oid Hb He. simpl.
    rewrite (get_system_prompt_other _ Hb He).
    split; [reflexivity | apply base_prompt_not_beginner].
Qed.

Lemma tier_default_only_when_unset_witness :
  (∃ user, User_init {[ "_id" := "65a1"; "username" := "red" ]} = Ok user ∧
           knowledge_level user = "Beginner") ∧
  instruction (agent (build_runner 0 "Intermediate")) = base_prompt.
Proof.
  destruct tier_default_only_when_unset as (Hunset & _ & Hother).
  split.
  - destruct (Hunset {[ "_id" := "65a1"; "username" := "red" ]} "65a1" "red" 0%nat)
      as (user & Huser & Hlevel & _); [reflexivity | reflexivity | reflexivity |].
    exists user. split; assumption.
  - apply (Hother "Intermediate" 0%nat); discriminate.
Defined.

(** ** Further properties of the aggregation and of the prompt *)

(** An event with neither a [text] nor a [content] attribute raises nothing
    and leaves the accumulator as it is; the stream of such an event followed
    by the part "ok" aggregates to "ok". *)
Theorem unrecognized_event_ignored (final : string) (pre post : list Event) :
  inspect final unrecognized_event = (final, None) ∧
  aggregate (pre ++ unrecognized_event :: post) = aggregate (pre ++ post) ∧
  aggregate [unrecognized_event; structured_event ["ok"]] = "ok".
Proof.
  split; [reflexivity |]. split; [| reflexivity].
  unfold aggregate. now rewrite !aggregate_from_app.
Qed.

(** A turn whose stream ends without any event answers with the success
    result, the JSON object whose "response" member is the empty string, not
    with an error. *)
Theorem empty_stream_empty_response
    (create : string → string → string → result unit)
    (current_user : User) (msg : json) (w : World) :
  fst (chat {| create_session := create;
               run_async := fun _ _ _ => {| events := []; ending := None |} |}
            current_user msg w)
  = Ok (JObj [("response", JStr "")]).
Proof.
  unfold chat.
  set (eng := {| create_session := create; run_async := _ |}).
  set (session_id := "session_" +:+ user_id current_user).
  destruct (get_runner_trace session_id (knowledge_level current_user) w)
    as (runner & w1 & Hrun & _).
  destruct (ensure_session_generation_calls eng session_id w1)
    as (w2 & Hens & _).
  unfold bind at 1. rewrite Hrun.
  unfold bind at 1. rewrite Hens.
  reflexivity.
Qed.

Lemma get_system_prompt_extends_base (tier : string) :
  ∃ suffix, get_system_prompt tier = base_prompt +:+ suffix.
Proof.
  unfold get_system_prompt.
  destruct (String.eqb tier "Beginner"); [now exists beginner_suffix |].
  destruct (String.eqb tier "Expert"); [now exists expert_suffix |].
  exists "". now rewrite append_empty_r.
Qed.

Lemma contains_append_r (sub s suffix : string) :
  PyStr.contains sub s = true → PyStr.contains sub (s +:+ suffix) = true.
Proof.
  intros H. apply contains_spec in H as (pre & post & ->).
  apply contains_spec. exists pre, (post +:+ suffix).
  now rewrite !append_assoc.
Qed.

(** The instruction of every tier holds the three base directives; the
    Beginner instruction holds the explanatory sentence, the Expert one does
    not. *)
Theorem system_prompt_directives (tier : string) :
  PyStr.contains "Ask for Format if missing." (get_system_prompt tier) = true ∧
  PyStr.contains "Use `get_usage_stats` for data." (get_system_prompt tier) = true ∧
  PyStr.contains "OUTPUT TEAMS IN SHOWDOWN IMPORTABLE FORMAT INSIDE CODE BLOCKS (```)."
    (get_system_prompt tier) = true ∧
  PyStr.contains "Explain terms (STAB, EVs). Be educational."
    (get_system_prompt "Beginner") = true ∧
  PyStr.contains "Explain terms (STAB, EVs). Be educational."
    (get_system_prompt "Expert") = false.
Proof.
  destruct (get_system_prompt_extends_base tier) as [suffix ->].
  repeat split; try (apply contains_append_r); vm_compute; reflexivity.
Qed.

(** * Further properties of the code *)

#[local] Set Warnings "-clear-no-such-hyp".

(** ** The normalized format identifier *)

Lemma lower_char_not_upper (c : ascii) : PyStr.isupper (PyStr.lower_char c) = false.
Proof. destruct c as [[] [] [] [] [] [] [] []]; vm_compute; reflexivity. Qed.

Lemma lower_no_upper (s : string) :
  all_chars (fun c => negb (PyStr.isupper c)) (PyStr.lower s) = true.
Proof.
  induction s as [|c s IH]; simpl; [reflexivity |].
  now rewrite lower_char_not_upper, IH.
Qed.

Lemma lower_fixed (s : string) :
  all_chars (fun c => negb (PyStr.isupper c)) s = true → PyStr.lower s = s.
Proof.
  induction s as [|c s IH]; simpl; [reflexivity |].
  intros H. apply andb_true_iff in H as [Hc Hs].
  unfold PyStr.lower_char. apply negb_true_iff in Hc. rewrite Hc.
  now rewrite IH.
Qed.

Lemma lstrip_all_chars (p : ascii → bool) (s : string) :
  all_chars p s = true → all_chars p (PyStr.lstrip s) = true.
Proof.
  induction s as [|c s IH]; simpl; [reflexivity |].
  intros H. destruct (PyStr.isspace c); [| exact H].
  apply andb_true_iff in H as [_ Hs]. auto.
Qed.

Lemma rstrip_unfold (c : ascii) (s : string) :
  PyStr.rstrip (String c s) =
  match PyStr.rstrip s with
  | EmptyString => if PyStr.isspace c then EmptyString else String c EmptyString
  | r => String c r
  end.
Proof. reflexivity. Qed.

Lemma rstrip_all_chars (p : ascii → bool) (s : string) :
  all_chars p s = true → all_chars p (PyStr.rstrip s) = true.
Proof.
  induction s as [|c s IH]; [reflexivity |].
  intros H. simpl in H. apply andb_true_iff in H as [Hc Hs].
  rewrite rstrip_unfold. specialize (IH Hs).
  destruct (PyStr.rstrip s) as [|a r].
  - destruct (PyStr.isspace c); simpl; [reflexivity | now rewrite Hc].
  - simpl. simpl in IH. now rewrite Hc, IH.
Qed.

Lemma replace_space_all_chars (p : ascii → bool) (s : string) :
  all_chars p s = true → all_chars p (PyStr.replace_char SPACE "" s) = true.
Proof.
  induction s as [|c s IH]; simpl; [reflexivity |].
  intros H. apply andb_true_iff in H as [Hc Hs].
  destruct (Ascii.eqb c SPACE); simpl; [auto | now rewrite Hc, IH].
Qed.

Lemma replace_space_no_space (s : string) :
  all_chars (fun c => negb (Ascii.eqb c SPACE)) (PyStr.replace_char SPACE "" s) = true.
Proof.
  induction s as [|c s IH]; simpl; [reflexivity |].
  destruct (Ascii.eqb c SPACE) eqn:E; simpl; [exact IH | now rewrite E, IH].
Qed.

Lemma replace_space_fixed (s : string) :
  all_chars (fun c => negb (Ascii.eqb c SPACE)) s = true →
  PyStr.replace_char SPACE "" s = s.
Proof.
  induction s as [|c s IH]; simpl; [reflexivity |].
  intros H. apply andb_true_iff in H as [Hc Hs].
  apply negb_true_iff in Hc. rewrite Hc. now rewrite IH.
Qed.

Lemma not_space_not_SPACE (c : ascii) :
  PyStr.isspace c = false → Ascii.eqb c SPACE = false.
Proof.
  intros H. destruct (Ascii.eqb_spec c SPACE) as [-> |]; [discriminate | reflexivity].
Qed.

Lemma rstrip_idempotent (s : string) :
  PyStr.rstrip (PyStr.rstrip s) = PyStr.rstrip s.
Proof.
  induction s as [|c s IH]; [reflexivity |].
  rewrite rstrip_unfold.
  destruct (PyStr.rstrip s) as [|a r] eqn:E.
  - destruct (PyStr.isspace c) eqn:Ec; [reflexivity |].
    rewrite rstrip_unfold. simpl. now rewrite Ec.
  - rewrite rstrip_unfold, IH. reflexivity.
Qed.

Lemma rstrip_fixed_inv (c : ascii) (r : string) :
  PyStr.rstrip (String c r) = String c r →
  (r = "" ∧ PyStr.isspace c = false) ∨ (r ≠ "" ∧ PyStr.rstrip r = r).
Proof.
  rewrite rstrip_unfold.
  destruct (PyStr.rstrip r) as [|a r0] eqn:E.
  - destruct (PyStr.isspace c); [discriminate |].
    intros H. inversion H. now left.
  - intros H. injection H as <-. right. split; [discriminate | reflexivity].
Qed.

Lemma replace_space_unfold (c : ascii) (s : string) :
  PyStr.replace_char SPACE "" (String c s) =
  if Ascii.eqb c SPACE then PyStr.replace_char SPACE "" s
  else String c (PyStr.replace_char SPACE "" s).
Proof. reflexivity. Qed.

Lemma replace_space_rstrip_fixed (s : string) :
  PyStr.rstrip s = s →
  PyStr.rstrip (PyStr.replace_char SPACE "" s) = PyStr.replace_char SPACE "" s ∧
  (s ≠ "" → PyStr.replace_char SPACE "" s ≠ "").
Proof.
  induction s as [|c r IH]; [intros _; split; [reflexivity | congruence] |].
  intros H. rewrite replace_space_unfold.
  apply rstrip_fixed_inv in H as [[-> Hc] | [Hne Hr]].
  - rewrite (not_space_not_SPACE _ Hc). rewrite rstrip_unfold. simpl.
    rewrite Hc. split; [reflexivity | discriminate].
  - destruct (IH Hr) as [Hfix Hnonempty]. specialize (Hnonempty Hne).
    destruct (Ascii.eqb c SPACE).
    + split; [exact Hfix | intros _; exact Hnonempty].
    + rewrite rstrip_unfold, Hfix.
      destruct (PyStr.replace_char SPACE "" r); [contradiction |].
      split; [reflexivity | discriminate].
Qed.

Lemma strip_head (s : string) :
  PyStr.strip s = "" ∨
  ∃ c r, PyStr.strip s = String c r ∧ PyStr.isspace c = false.
Proof.
  unfold PyStr.strip.
  assert (Hl : PyStr.lstrip s = "" ∨
               ∃ c r, PyStr.lstrip s = String c r ∧ PyStr.isspace c = false).
  { induction s as [|c s IH]; simpl; [now left |].
    destruct (PyStr.isspace c) eqn:E; [exact IH | right; eauto]. }
  destruct Hl as [-> | (c & r & -> & Hc)]; [now left |].
  right. rewrite rstrip_unfold.
  destruct (PyStr.rstrip r); [rewrite Hc |]; eauto.
Qed.

Lemma strip_replace_strip (s : string) :
  PyStr.strip (PyStr.replace_char SPACE "" (PyStr.strip s))
  = PyStr.replace_char SPACE "" (PyStr.strip s).
Proof.
  assert (Hfix : PyStr.rstrip (PyStr.strip s) = PyStr.strip s)
    by apply rstrip_idempotent.
  apply replace_space_rstrip_fixed in Hfix as [Hfix _].
  unfold PyStr.strip at 1.
  destruct (strip_head s) as [E | (c & r & E & Hc)].
  - rewrite E. reflexivity.
  - rewrite E in *. simpl in *.
    rewrite (not_space_not_SPACE _ Hc) in *. simpl. now rewrite Hc.
Qed.

(** The identifier both tools build from their argument holds no space,
    does not start or end with white space, and is a fixed point of the
    normalization: normalizing twice is normalizing once. *)
Theorem normalize_no_space_fixed_point (format : string) :
  all_chars (fun c => negb (Ascii.eqb c SPACE)) (normalize format) = true ∧
  PyStr.strip (normalize format) = normalize format ∧
  normalize (normalize format) = normalize format.
Proof.
  assert (Hlow : PyStr.lower (normalize format) = normalize format).
  { apply lower_fixed. unfold normalize, PyStr.strip.
    apply replace_space_all_chars, rstrip_all_chars, lstrip_all_chars, lower_no_upper. }
  assert (Hsp : all_chars (fun c => negb (Ascii.eqb c SPACE)) (normalize format) = true)
    by apply replace_space_no_space.
  assert (Hstrip : PyStr.strip (normalize format) = normalize format)
    by apply strip_replace_strip.
  split; [exact Hsp |]. split; [exact Hstrip |].
  unfold normalize at 1.
  now rewrite Hlow, Hstrip, (replace_space_fixed _ Hsp).
Qed.

(** ** What the tools answer *)


(** ** Aggregation is append-only between plain texts *)

Lemma add_parts_prefix (ps : list Part) (a b : string) :
  add_parts (a +:+ b) ps = (a +:+ fst (add_parts b ps), snd (add_parts b ps)).
Proof.
  revert b. induction ps as [|p ps IH]; intros b; simpl; [reflexivity |].
  destruct (part_text p) as [| |s]; simpl; [apply IH | reflexivity |].
  rewrite append_assoc. apply IH.
Qed.

Lemma step_prefix (e : Event) (a b : string) :
  hasattr (text e) && truthy (text e) = false →
  step (a +:+ b) e = a +:+ step b e.
Proof.
  intros H. unfold step, inspect. rewrite H.
  destruct (hasattr (content e)); [| reflexivity].
  destruct (content e) as [| |c]; try reflexivity.
  destruct (parts c) as [| |ps]; try reflexivity.
  now rewrite add_parts_prefix.
Qed.

Lemma aggregate_from_prefix (evs : list Event) :
  no_plain_text evs →
  ∀ a b, aggregate_from (a +:+ b) evs = a +:+ aggregate_from b evs.
Proof.
  unfold aggregate_from.
  induction 1 as [|e evs He _ IH]; intros a b; simpl; [reflexivity |].
  now rewrite (step_prefix _ _ _ He), IH.
Qed.

(** While no event exposes a non-empty plain text, the aggregation only
    appends: what was accumulated stays a prefix of the reply, and the reply
    of two streams one after the other is the reply of the first followed by
    the reply of the second. *)
Theorem aggregate_appends_without_plain_text (evs1 evs2 : list Event) :
  no_plain_text evs2 →
  (∀ final, aggregate_from final evs2 = final +:+ aggregate evs2) ∧
  aggregate (evs1 ++ evs2) = aggregate evs1 +:+ aggregate evs2.
Proof.
  intros H.
  assert (Hfrom : ∀ final, aggregate_from final evs2 = final +:+ aggregate evs2).
  { intros final. unfold aggregate.
    rewrite <- (aggregate_from_prefix _ H final ""). now rewrite append_empty_r. }
  split; [exact Hfrom |].
  unfold aggregate at 1. rewrite aggregate_from_app. apply Hfrom.
Qed.

Lemma aggregate_appends_without_plain_text_witness :
  aggregate ([plain_text_event "Team: " Absent]
             ++ [structured_event ["Great Tusk"];
                 {| text := Val ""; content := IsNone |};
                 structured_event [", Kingambit"]])
  = "Team: " +:+ "Great Tusk, Kingambit".
Proof.
  apply (aggregate_appends_without_plain_text
           [plain_text_event "Team: " Absent]
           [structured_event ["Great Tusk"];
            {| text := Val ""; content := IsNone |};
            structured_event [", Kingambit"]]).
  repeat constructor.
Defined.

(** ** The state a chat turn leaves *)

(** Closes the description of the state a turn leaves. *)
Ltac close_effect :=
  (split; [reflexivity |]); simpl;
  repeat match goal with |- _ ∧ _ => split end;
  [ reflexivity | reflexivity | set_solver
  | rewrite <- ?app_assoc; reflexivity
  | intros ?; first [reflexivity | contradiction] ].

Ltac close_branch eng sid :=
  unfold consume; run_m;
  destruct (create_session eng sid "web_user" APP_NAME) as [[]|?]; simpl;
  destruct (ending _); simpl;
  [ eexists _, _, [CreateSession sid "web_user" APP_NAME]
  | eexists _, _, [CreateSession sid "web_user" APP_NAME]
  | eexists _, _, [CreateSession sid "web_user" APP_NAME; Stdout _]
  | eexists _, _, [CreateSession sid "web_user" APP_NAME; Stdout _] ];
  close_effect.

(** What one turn does to the process state. *)
Lemma chat_effect (eng : Engine) (u : User) (msg : json) (w : World) :
  ∃ reply w' calls,
    chat eng u msg w = (Ok reply, w') ∧
    RUNNER_CACHE w' =
      match RUNNER_CACHE w !! session_of u with
      | Some _ => RUNNER_CACHE w
      | None => <[session_of u := build_runner (next_ident w) (knowledge_level u)]>
                  (RUNNER_CACHE w)
      end ∧
    next_ident w' =
      match RUNNER_CACHE w !! session_of u with
      | Some _ => next_ident w
      | None => S (next_ident w)
      end ∧
    INITIALIZED_SESSIONS w' = {[session_of u]} ∪ INITIALIZED_SESSIONS w ∧
    trace w' = trace w ++ calls
                 ++ [RunAsync "web_user" (session_of u) (new_message msg)] ∧
    (session_of u ∈ INITIALIZED_SESSIONS w → calls = []).
Proof.
  unfold chat, session_of.
  set (sid := "session_" +:+ user_id u).
  unfold bind at 1. unfold get_runner.
  destruct (RUNNER_CACHE w !! sid) as [r|] eqn:Hc.
  - unfold bind at 1. unfold ensure_session.
    destruct (decide (sid ∈ INITIALIZED_SESSIONS w)) as [Hin|Hout].
    + unfold consume. run_m.
      destruct (ending _); simpl; eexists _, _, []; close_effect.
    + close_branch eng sid.
  - unfold bind at 1. unfold fresh, cache_runner, ret at 1. simpl.
    unfold bind at 1. unfold ensure_session. simpl.
    destruct (decide (sid ∈ INITIALIZED_SESSIONS w)) as [Hin|Hout].
    + unfold consume. run_m.
      destruct (ending _); simpl; eexists _, _, []; close_effect.
    + close_branch eng sid.
Qed.

Lemma session_of_inj (u1 u2 : User) :
  session_of u1 = session_of u2 → user_id u1 = user_id u2.
Proof. unfold session_of. apply (inj (String.app "session_")). Qed.

(** After a turn the session id is cached and initialized. *)
Lemma chat_leaves_session (eng : Engine) (u : User) (msg : json) (w : World) :
  ∃ reply w',
    chat eng u msg w = (Ok reply, w') ∧
    is_Some (RUNNER_CACHE w' !! session_of u) ∧
    session_of u ∈ INITIALIZED_SESSIONS w'.
Proof.
  destruct (chat_effect eng u msg w)
    as (reply & w' & calls & Hchat & Hcache & _ & Hinit & _).
  exists reply, w'. split; [exact Hchat |].
  rewrite Hinit, Hcache. split; [| set_solver].
  destruct (RUNNER_CACHE w !! session_of u) as [r|] eqn:Hc.
  - rewrite Hc. eauto.
  - rewrite lookup_insert_eq. eauto.
Qed.

(** What a turn adds once its message is read. *)
Lemma chat_adds_own_session (eng : Engine) (u : User) (msg : json) (w : World) :
  ∃ reply w',
    chat eng u msg w = (Ok reply, w') ∧
    RUNNER_CACHE w ⊆ RUNNER_CACHE w' ∧
    INITIALIZED_SESSIONS w ⊆ INITIALIZED_SESSIONS w' ∧
    is_Some (RUNNER_CACHE w' !! session_of u) ∧
    session_of u ∈ INITIALIZED_SESSIONS w' ∧
    (∀ k, k ≠ session_of u →
          RUNNER_CACHE w' !! k = RUNNER_CACHE w !! k ∧
          (k ∈ INITIALIZED_SESSIONS w' ↔ k ∈ INITIALIZED_SESSIONS w)).
Proof.
  destruct (chat_effect eng u msg w)
    as (reply & w' & calls & Hchat & Hcache & _ & Hinit & _).
  destruct (chat_leaves_session eng u msg w)
    as (reply' & w'' & Hchat' & Hsome & Hin).
  rewrite Hchat in Hchat'. injection Hchat' as <- <-.
  exists reply, w'. split; [exact Hchat |].
  split; [| split; [| split; [exact Hsome | split; [exact Hin |]]]].
  - rewrite Hcache.
    destruct (RUNNER_CACHE w !! session_of u) as [r|] eqn:Hc;
      [reflexivity | now apply insert_subseteq].
  - rewrite Hinit. set_solver.
  - intros k Hk. split.
    + rewrite Hcache.
      destruct (RUNNER_CACHE w !! session_of u) as [r|] eqn:Hc;
        [reflexivity | now rewrite lookup_insert_ne].
    + rewrite Hinit. set_solver.
Qed.

(** A chat request of a logged-in user whose body is a JSON object returns
    and only adds to the process state, under the user's own session id: the
    message handed on is the body's "message" member ([None] without one),
    every cached runner and every initialized session id is still there
    afterwards, unchanged, the user's session id is cached and initialized,
    and the entries of every other session id are as they were. A request
    whose body cannot be read, or is JSON but not an object, raises at its
    first line, before anything is done: the process state is as it was. *)
Theorem chat_only_adds_own_session
    (eng : Engine) (u : User) (req : Request) (w : World) :
  (∀ members,
     req_json req = Ok (JObj members) →
     ∃ reply w',
       chat_request eng u req w = (Ok reply, w') ∧
       chat eng u (default JNull (assoc_get "message" members)) w = (Ok reply, w') ∧
       RUNNER_CACHE w ⊆ RUNNER_CACHE w' ∧
       INITIALIZED_SESSIONS w ⊆ INITIALIZED_SESSIONS w' ∧
       is_Some (RUNNER_CACHE w' !! session_of u) ∧
       session_of u ∈ INITIALIZED_SESSIONS w' ∧
       (∀ k, k ≠ session_of u →
             RUNNER_CACHE w' !! k = RUNNER_CACHE w !! k ∧
             (k ∈ INITIALIZED_SESSIONS w' ↔ k ∈ INITIALIZED_SESSIONS w))) ∧
  (∀ e, req_json req = Raise e → chat_request eng u req w = (Raise e, w)) ∧
  (∀ data,
     req_json req = Ok data → (∀ members, data ≠ JObj members) →
     ∃ e, chat_request eng u req w = (Raise e, w)).
Proof.
  unfold chat_request, bind, lift. split; [| split].
  - intros members ->. simpl.
    destruct (chat_adds_own_session eng u
                (default JNull (assoc_get "message" members)) w)
      as (reply & w' & Hchat & H).
    exists reply, w'. rewrite Hchat.
    split; [reflexivity | split; [reflexivity | exact H]].
  - intros e ->. reflexivity.
  - intros data -> Hshape.
    destruct data; simpl; eauto. now destruct (Hshape members).
Qed.

Lemma chat_only_adds_own_session_witness :
  (∃ reply w',
     chat_request answering_engine red_user hello_request fresh_world
       = (Ok reply, w') ∧
     session_of red_user ∈ INITIALIZED_SESSIONS w') ∧
  (∃ e, chat_request answering_engine red_user list_request fresh_world
        = (Raise e, fresh_world)).
Proof.
  destruct (chat_only_adds_own_session
              answering_engine red_user hello_request fresh_world)
    as (Hobject & _).
  destruct (chat_only_adds_own_session
              answering_engine red_user list_request fresh_world)
    as (_ & _ & Hother).
  split.
  - destruct (Hobject [("message", JStr "Build me a team")] eq_refl)
      as (reply & w' & Hchat & _ & _ & _ & _ & Hin & _).
    exists reply, w'. split; assumption.
  - apply (Hother (JArr []) eq_refl). discriminate.
Defined.

(** A later turn of the same user reuses what the first turn left: it
    builds no runner and makes no session-creation call, even with another
    knowledge level on the user; the generation call is the one call it
    makes, and the cache and the set of initialized sessions stay as they
    are. *)
Theorem later_turn_reuses_session
    (eng1 eng2 : Engine) (u1 u2 : User) (msg1 msg2 : json) (w : World) :
  user_id u2 = user_id u1 →
  ∃ reply1 w1 reply2 w2,
    chat eng1 u1 msg1 w = (Ok reply1, w1) ∧
    chat eng2 u2 msg2 w1 = (Ok reply2, w2) ∧
    RUNNER_CACHE w2 = RUNNER_CACHE w1 ∧
    INITIALIZED_SESSIONS w2 = INITIALIZED_SESSIONS w1 ∧
    next_ident w2 = next_ident w1 ∧
    trace w2 = trace w1 ++ [RunAsync "web_user" (session_of u1) (new_message msg2)].
Proof.
  intros Hid.
  assert (Hsid : session_of u2 = session_of u1)
    by (unfold session_of; now rewrite Hid).
  destruct (chat_leaves_session eng1 u1 msg1 w)
    as (reply1 & w1 & Hchat1 & [r Hr] & Hin).
  destruct (chat_effect eng2 u2 msg2 w1)
    as (reply2 & w2 & calls & Hchat2 & Hcache & Hnext & Hinit & Htrace & Hcalls).
  rewrite Hsid in *. rewrite Hr in *.
  exists reply1, w1, reply2, w2.
  repeat split; try assumption.
  - rewrite Hinit. set_solver.
  - rewrite Htrace, (Hcalls Hin). reflexivity.
Qed.

Lemma later_turn_reuses_session_witness :
  ∃ reply1 w1 reply2 w2,
    chat {| create_session := fun _ _ _ => Ok tt;
            run_async := fun _ _ _ => {| events := []; ending := None |} |}
         {| user_id := "65a1"; username := "red"; knowledge_level := "Beginner" |}
         (JStr "hi")
         {| RUNNER_CACHE := ∅; INITIALIZED_SESSIONS := ∅; next_ident := 0; trace := [] |}
      = (Ok reply1, w1) ∧
    chat {| create_session := fun _ _ _ => Ok tt;
            run_async := fun _ _ _ => {| events := []; ending := None |} |}
         {| user_id := "65a1"; username := "red"; knowledge_level := "Expert" |}
         (JStr "again") w1
      = (Ok reply2, w2) ∧
    RUNNER_CACHE w2 = RUNNER_CACHE w1.
Proof.
  destruct (later_turn_reuses_session
              {| create_session := fun _ _ _ => Ok tt;
                 run_async := fun _ _ _ => {| events := []; ending := None |} |}
              {| create_session := fun _ _ _ => Ok tt;
                 run_async := fun _ _ _ => {| events := []; ending := None |} |}
              {| user_id := "65a1"; username := "red"; knowledge_level := "Beginner" |}
              {| user_id := "65a1"; username := "red"; knowledge_level := "Expert" |}
              (JStr "hi") (JStr "again")
              {| RUNNER_CACHE := ∅; INITIALIZED_SESSIONS := ∅;
                 next_ident := 0; trace := [] |}
              eq_refl)
    as (reply1 & w1 & reply2 & w2 & H1 & H2 & H3 & _).
  exists reply1, w1, reply2, w2. repeat split; assumption.
Defined.

Lemma chat_keeps_cache_ok (eng : Engine) (u : User) (msg : json) (w : World) :
  cache_ok w → cache_ok (snd (chat eng u msg w)).
Proof.
  intros [Hlt Hinj].
  destruct (chat_effect eng u msg w)
    as (reply & w' & calls & Hchat & Hcache & Hnext & _).
  rewrite Hchat. simpl. unfold cache_ok. rewrite Hcache, Hnext.
  destruct (RUNNER_CACHE w !! session_of u) as [r|] eqn:Hc; [now split |].
  split.
  - intros k r Hk. destruct (decide (k = session_of u)) as [-> | Hne].
    + rewrite lookup_insert_eq in Hk. injection Hk as <-. simpl. lia.
    + rewrite lookup_insert_ne in Hk by congruence.
      specialize (Hlt _ _ Hk). lia.
  - intros k1 k2 r1 r2 H1 H2 Hid.
    destruct (decide (k1 = session_of u)) as [-> | Hne1];
      destruct (decide (k2 = session_of u)) as [-> | Hne2]; try reflexivity.
    + rewrite lookup_insert_eq in H1. injection H1 as <-.
      rewrite lookup_insert_ne in H2 by congruence.
      specialize (Hlt _ _ H2). simpl in Hid. lia.
    + rewrite lookup_insert_eq in H2. injection H2 as <-.
      rewrite lookup_insert_ne in H1 by congruence.
      specialize (Hlt _ _ H1). simpl in Hid. lia.
    + rewrite lookup_insert_ne in H1, H2 by congruence. eauto.
Qed.

Lemma chat_turns_snoc (turns : list (Engine * User * json))
    (eng : Engine) (u : User) (msg : json) (w : World) :
  chat_turns (turns ++ [(eng, u, msg)]) w
  = snd (chat eng u msg (chat_turns turns w)).
Proof. unfold chat_turns. now rewrite fold_left_app. Qed.

(** In a process that starts with an empty cache, whatever turns it serves,
    no two session ids ever share a runner object: the runners cached for two
    users with different ids are different objects. *)
Theorem runners_never_shared
    (turns : list (Engine * User * json)) (u1 u2 : User) (r1 r2 : InMemoryRunner) :
  user_id u1 ≠ user_id u2 →
  RUNNER_CACHE (chat_turns turns fresh_world) !! session_of u1 = Some r1 →
  RUNNER_CACHE (chat_turns turns fresh_world) !! session_of u2 = Some r2 →
  ident r1 ≠ ident r2.
Proof.
  intros Hne H1 H2 Hid.
  assert (Hok : cache_ok (chat_turns turns fresh_world)).
  { clear. induction turns as [|[[eng u] msg] turns IH] using rev_ind.
    - split; intros *; simpl; rewrite lookup_empty; discriminate.
    - rewrite chat_turns_snoc. now apply chat_keeps_cache_ok. }
  destruct Hok as [_ Hinj].
  apply Hne, session_of_inj. eauto.
Qed.

Lemma runners_never_shared_witness :
  ident (build_runner 0 "Beginner") ≠ ident (build_runner 1 "Beginner").
Proof.
  apply (runners_never_shared
           [ ({| create_session := fun _ _ _ => Ok tt;
                 run_async := fun _ _ _ => {| events := []; ending := None |} |},
              {| user_id := "a"; username := "red"; knowledge_level := "Beginner" |},
              JStr "hi");
             ({| create_session := fun _ _ _ => Ok tt;
                 run_async := fun _ _ _ => {| events := []; ending := None |} |},
              {| user_id := "b"; username := "blue"; knowledge_level := "Beginner" |},
              JStr "hi") ]
           {| user_id := "a"; username := "red"; knowledge_level := "Beginner" |}
           {| user_id := "b"; username := "blue"; knowledge_level := "Beginner" |}).
  - discriminate.
  - reflexivity.
  - reflexivity.
Defined.

Lemma sessions_of_snoc (turns : list (Engine * User * json))
    (eng : Engine) (u : User) (msg : json) :
  sessions_of (turns ++ [(eng, u, msg)]) = {[session_of u]} ∪ sessions_of turns.
Proof.
  unfold sessions_of. rewrite map_app, list_to_set_app_L. simpl. set_solver.
Qed.

Lemma initialized_sessions_of (turns : list (Engine * User * json)) :
  INITIALIZED_SESSIONS (chat_turns turns fresh_world) = sessions_of turns.
Proof.
  induction turns as [|[[eng u] msg] turns IH] using rev_ind; [reflexivity |].
  rewrite chat_turns_snoc, sessions_of_snoc.
  destruct (chat_effect eng u msg (chat_turns turns fresh_world))
    as (reply & w' & calls & Hchat & _ & _ & Hinit & _).
  rewrite Hchat. simpl. now rewrite Hinit, IH.
Qed.

(** In a process that starts with an empty cache and an empty set, after
    any turns the initialized session ids are exactly the session ids with a
    cached runner, and these are exactly the session ids of the users who
    chatted. *)
Theorem initialized_iff_cached (turns : list (Engine * User * json)) :
  dom (RUNNER_CACHE (chat_turns turns fresh_world))
    = INITIALIZED_SESSIONS (chat_turns turns fresh_world) ∧
  INITIALIZED_SESSIONS (chat_turns turns fresh_world) = sessions_of turns.
Proof.
  induction turns as [|[[eng u] msg] turns [IHd IHs]] using rev_ind.
  - split; [apply dom_empty_L | reflexivity].
  - rewrite chat_turns_snoc.
    destruct (chat_effect eng u msg (chat_turns turns fresh_world))
      as (reply & w' & calls & Hchat & Hcache & _ & Hinit & _).
    rewrite Hchat. simpl. rewrite Hinit, Hcache.
    assert (Hs : sessions_of (turns ++ [(eng, u, msg)])
                 = {[session_of u]} ∪ sessions_of turns).
    { unfold sessions_of. rewrite map_app, list_to_set_app_L. simpl. set_solver. }
    rewrite Hs, <- IHs. split; [| reflexivity].
    destruct (RUNNER_CACHE (chat_turns turns fresh_world) !! session_of u)
      as [r|] eqn:Hc.
    + assert (session_of u ∈ dom (RUNNER_CACHE (chat_turns turns fresh_world)))
        by (apply elem_of_dom; eauto).
      set_solver.
    + rewrite dom_insert_L. now rewrite IHd.
Qed.

(** ** Accounts *)

Lemma find_one_Some (f : UserDoc → bool) (users : list UserDoc) (d : UserDoc) :
  find_one f users = Some d →
  ∃ pre post, users = pre ++ d :: post ∧ f d = true ∧
              Forall (fun d' => f d' = false) pre.
Proof.
  unfold find_one. induction users as [|x users IH]; simpl; [discriminate |].
  destruct (f x) eqn:Hx.
  - intros [= ->]. exists [], users. auto.
  - intros H. destruct (IH H) as (pre & post & -> & Hd & Hpre).
    exists (x :: pre), post. auto.
Qed.

Lemma find_one_None (f : UserDoc → bool) (users : list UserDoc) :
  find_one f users = None ↔ Forall (fun d => f d = false) users.
Proof.
  unfold find_one. induction users as [|x users IH]; simpl.
  - split; auto.
  - destruct (f x) eqn:Hx.
    + split; [discriminate | intros H; inversion H; congruence].
    + rewrite IH. split; [auto | intros H; now inversion H].
Qed.

Lemma find_one_split (f : UserDoc → bool) (pre post : list UserDoc) (d : UserDoc) :
  Forall (fun d' => f d' = false) pre → f d = true →
  find_one f (pre ++ d :: post) = Some d.
Proof.
  unfold find_one. induction 1 as [|x pre Hx _ IH]; intros Hd; simpl.
  - now rewrite Hd.
  - rewrite Hx. auto.
Qed.

Lemma has_field_true (k v : string) (d : UserDoc) :
  has_field k v d = true ↔ doc_fields d !! k = Some v.
Proof. unfold has_field. apply bool_decide_eq_true. Qed.

Lemma has_field_false (k v : string) (d : UserDoc) :
  has_field k v d = false ↔ doc_fields d !! k ≠ Some v.
Proof. unfold has_field. apply bool_decide_eq_false. Qed.

(** [User.get] finds the stored user, and nothing else: it returns a user
    only for a non-empty id that [ObjectId] accepts and that is the [_id] of a
    stored document, with the id, the username and the knowledge level
    (Beginner when missing) of the first such document; and it does return
    that user whenever the first such document has a username. *)
Theorem User_get_finds_stored_user
    (ObjectId : string → result string) (users : list UserDoc) (uid : string) :
  (∀ u, User_get ObjectId users uid = Some u →
        uid ≠ "" ∧ ObjectId uid = Ok (user_id u) ∧
        ∃ data, data ∈ users ∧
                find_one (has_field "_id" (user_id u)) users = Some data ∧
                doc_fields data !! "_id" = Some (user_id u) ∧
                doc_fields data !! "username" = Some (username u) ∧
                knowledge_level u =
                  default "Beginner" (doc_fields data !! "knowledge_level")) ∧
  (∀ oid data name,
     uid ≠ "" → ObjectId uid = Ok oid →
     find_one (has_field "_id" oid) users = Some data →
     doc_fields data !! "username" = Some name →
     User_get ObjectId users uid =
       Some {| user_id := oid; username := name;
               knowledge_level :=
                 default "Beginner" (doc_fields data !! "knowledge_level") |}).
Proof.
  unfold User_get, User_get_try, is_valid. split.
  - intros u. destruct (String.eqb_spec uid "") as [-> | Hne]; simpl; [discriminate |].
    destruct (ObjectId uid) as [oid|e]; simpl; [| discriminate].
    destruct (find_one (has_field "_id" oid) users) as [data|] eqn:Hf; [| discriminate].
    destruct (find_one_Some _ _ _ Hf) as (pre & post & -> & Hd & _).
    apply has_field_true in Hd.
    unfold User_init. rewrite Hd.
    destruct (doc_fields data !! "username") as [name|] eqn:Hn; simpl; [| discriminate].
    intros [= <-]. simpl. repeat split; try assumption.
    exists data. repeat split; try assumption. set_solver.
  - intros oid data name Hne Hoid Hf Hn.
    destruct (String.eqb_spec uid "") as [-> | _]; [contradiction |]. simpl.
    rewrite Hoid. simpl. rewrite Hf.
    destruct (find_one_Some _ _ _ Hf) as (pre & post & -> & Hd & _).
    apply has_field_true in Hd.
    unfold User_init. rewrite Hd, Hn. reflexivity.
Qed.

Lemma User_get_finds_stored_user_witness :
  User_get (fun s => Ok s)
    [ {| doc_fields := {[ "_id" := "65a1"; "username" := "red" ]};
         doc_created_at := None; doc_teams := None |} ] "65a1"
  = Some {| user_id := "65a1"; username := "red"; knowledge_level := "Beginner" |}.
Proof.
  destruct (User_get_finds_stored_user (fun s => Ok s)
              [ {| doc_fields := {[ "_id" := "65a1"; "username" := "red" ]};
                   doc_created_at := None; doc_teams := None |} ] "65a1")
    as [_ Hfound].
  rewrite (Hfound "65a1"
             {| doc_fields := {[ "_id" := "65a1"; "username" := "red" ]};
                doc_created_at := None; doc_teams := None |} "red");
    [reflexivity | discriminate | reflexivity | reflexivity | reflexivity].
Defined.

Lemma new_user_doc_init (oid name hashed level : string) (now : N) :
  User_init (doc_fields (new_user_doc oid name hashed level now))
  = Ok {| user_id := oid; username := name; knowledge_level := level |}.
Proof.
  unfold User_init, new_user_doc. simpl.
  rewrite lookup_insert_eq.
  rewrite lookup_insert_ne, lookup_insert_eq by discriminate.
  do 3 (rewrite lookup_insert_ne by discriminate).
  now rewrite lookup_singleton_eq.
Qed.

Lemma new_user_doc_username (oid name hashed level : string) (now : N) :
  doc_fields (new_user_doc oid name hashed level now) !! "username" = Some name.
Proof.
  unfold new_user_doc. simpl.
  now rewrite lookup_insert_ne, lookup_insert_eq by discriminate.
Qed.

Lemma new_user_doc_password (oid name hashed level : string) (now : N) :
  doc_fields (new_user_doc oid name hashed level now) !! "password" = Some hashed.
Proof.
  unfold new_user_doc. simpl.
  do 2 (rewrite lookup_insert_ne by discriminate).
  now rewrite lookup_insert_eq.
Qed.

(** The collection and the session are as they were, and the reply is not
    the redirect to the chat. *)
Ltac unchanged :=
  left; simpl; split; [reflexivity | split; [reflexivity | discriminate]].

(** The two ways [register] ends: the collection and the session are as
    they were and the reply is not the redirect to the chat, or a new
    document was appended for a free username and its user logged in. *)
Lemma register_cases (generate_password_hash : string → result string)
    (now : N) (oid : string) (req : Request) (s : Site) :
  (users_collection (snd (register generate_password_hash now oid req s))
     = users_collection s ∧
   session_uid (snd (register generate_password_hash now oid req s))
     = session_uid s ∧
   fst (register generate_password_hash now oid req s) ≠ Ok (Redirect "chat_app"))
  ∨
  (∃ name pw hashed level,
     req_method req = "POST" ∧
     req_form req !! "username" = Some name ∧
     req_form req !! "password" = Some pw ∧
     req_form req !! "level" = Some level ∧
     generate_password_hash pw = Ok hashed ∧
     find_one (has_field "username" name) (users_collection s) = None ∧
     find_one (has_field "_id" oid) (users_collection s) = None ∧
     register generate_password_hash now oid req s =
       (Ok (Redirect "chat_app"),
        {| users_collection :=
             users_collection s ++ [new_user_doc oid name hashed level now];
           session_uid := Some oid;
           flashed := flashed s |})).
Proof.
  destruct (register generate_password_hash now oid req s) as [r s'] eqn:R.
  revert R. unfold register.
  destruct (String.eqb_spec (req_method req) "POST") as [Hm | Hm];
    [| intros [= <- <-]; unchanged].
  unfold st_bind at 1. unfold st_lift at 1, form_get at 1.
  destruct (req_form req !! "username") as [name|] eqn:Hname;
    [| intros [= <- <-]; unchanged].
  unfold st_bind at 1. unfold get_users at 1.
  destruct (find_one (has_field "username" name) (users_collection s)) eqn:Hfree;
    [intros [= <- <-]; unchanged |].
  unfold st_bind at 1. unfold st_lift at 1, form_get at 1.
  destruct (req_form req !! "password") as [pw|] eqn:Hpw;
    [| intros [= <- <-]; unchanged].
  unfold st_bind at 1. unfold st_lift at 1.
  destruct (generate_password_hash pw) as [hashed|e] eqn:Hh;
    [| intros [= <- <-]; unchanged].
  unfold st_bind at 1. unfold st_lift at 1, form_get at 1.
  destruct (req_form req !! "level") as [level|] eqn:Hlevel;
    [| intros [= <- <-]; unchanged].
  unfold st_bind at 1. unfold insert_one at 1.
  destruct (find_one (has_field "_id" oid) (users_collection s)) eqn:Hid;
    [intros [= <- <-]; unchanged |].
  intros R. right. exists name, pw, hashed, level.
  repeat split; try assumption. rewrite <- R.
  unfold st_bind at 1. unfold get_users at 1. simpl.
  apply find_one_None in Hfree.
  rewrite (find_one_split _ _ [] _ Hfree)
    by (apply has_field_true, new_user_doc_username).
  unfold st_bind, st_lift, User_of_found, login_user, st_ret.
  rewrite new_user_doc_init. reflexivity.
Qed.

Lemma usernames_snoc (users : list UserDoc) (d : UserDoc) (name : string) :
  doc_fields d !! "username" = Some name →
  usernames (users ++ [d]) = usernames users ++ [name].
Proof. intros H. unfold usernames. rewrite omap_app. simpl. now rewrite H. Qed.

Lemma free_username_not_stored (users : list UserDoc) (name : string) :
  find_one (has_field "username" name) users = None → name ∉ usernames users.
Proof.
  intros Hfree Hin. apply find_one_None in Hfree.
  apply list_elem_of_omap in Hin as (d & Hd & Hname).
  rewrite Forall_forall in Hfree.
  specialize (Hfree d Hd). apply has_field_false in Hfree. contradiction.
Qed.

(** [register] never gives a username to a second document and never
    touches a stored document: the collection it leaves starts with the
    collection it found, and when the usernames were pairwise different
    before, they still are afterwards, whatever the request. *)
Theorem register_keeps_usernames_unique
    (generate_password_hash : string → result string)
    (now : N) (oid : string) (req : Request) (s : Site) :
  NoDup (usernames (users_collection s)) →
  NoDup (usernames
           (users_collection (snd (register generate_password_hash now oid req s)))) ∧
  users_collection s `prefix_of`
    users_collection (snd (register generate_password_hash now oid req s)).
Proof.
  intros Hnodup.
  destruct (register_cases generate_password_hash now oid req s)
    as [(Husers & _) | (name & pw & hashed & level & _ & _ & _ & _ & _ & Hfree & _ & ->)].
  - rewrite Husers. split; [exact Hnodup | reflexivity].
  - simpl. split; [| now apply prefix_app_r].
    rewrite (usernames_snoc _ _ name) by apply new_user_doc_username.
    apply NoDup_app. repeat split; [exact Hnodup | | apply NoDup_singleton].
    intros x Hx Hx'. apply list_elem_of_singleton in Hx' as ->.
    now apply (free_username_not_stored _ _ Hfree).
Qed.

Lemma register_keeps_usernames_unique_witness :
  NoDup (usernames
           (users_collection
              (snd (register (fun pw => Ok ("$2b$" +:+ pw)) 7 "65a2"
                      {| req_method := "POST";
                         req_form := {[ "username" := "blue"; "password" := "pika";
                                        "level" := "Expert" ]};
                         req_json := Ok JNull |}
                      {| users_collection :=
                           [new_user_doc "65a1" "red" "$2b$chu" "Beginner" 3];
                         session_uid := None; flashed := [] |})))).
Proof.
  apply (register_keeps_usernames_unique (fun pw => Ok ("$2b$" +:+ pw)) 7 "65a2").
  simpl. apply NoDup_singleton.
Defined.

(** The ways [login] ends, read off its branches. *)
Lemma login_cases (check_password_hash : string → string → result bool)
    (req : Request) (s : Site) (r : result Reply) (s' : Site) :
  login check_password_hash req s = (r, s') →
  users_collection s' = users_collection s ∧
  ((session_uid s' = session_uid s ∧ r ≠ Ok (Redirect "chat_app"))
   ∨
   (∃ name pw data pw_hash u,
      req_method req = "POST" ∧
      req_form req !! "username" = Some name ∧
      req_form req !! "password" = Some pw ∧
      find_one (has_field "username" name) (users_collection s) = Some data ∧
      doc_fields data !! "password" = Some pw_hash ∧
      check_password_hash pw_hash pw = Ok true ∧
      User_init (doc_fields data) = Ok u ∧
      r = Ok (Redirect "chat_app") ∧
      s' = {| users_collection := users_collection s;
              session_uid := Some (user_id u);
              flashed := flashed s |})).
Proof.
  unfold login.
  destruct (String.eqb_spec (req_method req) "POST") as [Hm | Hm];
    [| intros [= <- <-]; split; [reflexivity | left; split; [reflexivity | discriminate]]].
  unfold st_bind at 1. unfold st_lift at 1, form_get at 1.
  destruct (req_form req !! "username") as [name|] eqn:Hname;
    [| intros [= <- <-]; split; [reflexivity | left; split; [reflexivity | discriminate]]].
  unfold st_bind at 1. unfold get_users at 1.
  destruct (find_one (has_field "username" name) (users_collection s))
    as [data|] eqn:Hfind;
    [| intros [= <- <-]; split; [reflexivity | left; split; [reflexivity | discriminate]]].
  unfold st_bind at 1. unfold st_lift at 1, doc_password.
  destruct (doc_fields data !! "password") as [pw_hash|] eqn:Hhash;
    [| intros [= <- <-]; split; [reflexivity | left; split; [reflexivity | discriminate]]].
  unfold st_bind at 1. unfold st_lift at 1, form_get at 1.
  destruct (req_form req !! "password") as [pw|] eqn:Hpw;
    [| intros [= <- <-]; split; [reflexivity | left; split; [reflexivity | discriminate]]].
  unfold st_bind at 1. unfold st_lift at 1.
  destruct (check_password_hash pw_hash pw) as [[|]|e] eqn:Hcheck;
    [| intros [= <- <-]; split; [reflexivity | left; split; [reflexivity | discriminate]]
     | intros [= <- <-]; split; [reflexivity | left; split; [reflexivity | discriminate]]].
  unfold st_bind at 1. unfold st_lift at 1.
  destruct (User_init (doc_fields data)) as [u|e] eqn:Hu;
    [| intros [= <- <-]; split; [reflexivity | left; split; [reflexivity | discriminate]]].
  intros [= <- <-]. split; [reflexivity |].
  right. exists name, pw, data, pw_hash, u. repeat split; assumption.
Qed.

(** [login] lets a user in only with a password that bcrypt accepts for
    the hash stored with that username: the session takes a user id only
    then, and it is the id of the first document with the submitted username;
    in every other case the session is as it was. The collection is never
    changed. *)
Theorem login_only_with_accepted_password
    (check_password_hash : string → string → result bool)
    (req : Request) (s : Site) :
  users_collection (snd (login check_password_hash req s)) = users_collection s ∧
  (session_uid (snd (login check_password_hash req s)) = session_uid s ∨
   ∃ name pw data pw_hash,
     req_form req !! "username" = Some name ∧
     req_form req !! "password" = Some pw ∧
     find_one (has_field "username" name) (users_collection s) = Some data ∧
     doc_fields data !! "password" = Some pw_hash ∧
     check_password_hash pw_hash pw = Ok true ∧
     session_uid (snd (login check_password_hash req s))
       = doc_fields data !! "_id") ∧
  (fst (login check_password_hash req s) = Ok (Redirect "chat_app") →
   session_uid (snd (login check_password_hash req s)) ≠ None).
Proof.
  destruct (login check_password_hash req s) as [r s'] eqn:L.
  destruct (login_cases _ _ _ _ _ L)
    as [Husers [[Hsess Hr] |
                (name & pw & data & h & u & _ & Hn & Hp & Hf & Hh & Hc & Hu & -> & ->)]];
    simpl.
  - repeat split; [assumption | now left | congruence].
  - repeat split; [| discriminate]. right.
    exists name, pw, data, h. repeat split; try assumption.
    unfold User_init in Hu.
    destruct (doc_fields data !! "_id") as [i|]; [| discriminate].
    destruct (doc_fields data !! "username"); [| discriminate].
    injection Hu as <-. reflexivity.
Qed.

(** A registration that ended with the redirect to the chat can be followed
    by a login with the same form: provided bcrypt accepts a password for
    the hash it made of it, [login] on any later state with the same
    collection redirects to the chat with the session of the registered
    user. *)
Theorem register_then_login
    (generate_password_hash : string → result string)
    (check_password_hash : string → string → result bool)
    (now : N) (oid : string) (req : Request) (s s2 : Site) :
  (∀ pw h, generate_password_hash pw = Ok h → check_password_hash h pw = Ok true) →
  fst (register generate_password_hash now oid req s) = Ok (Redirect "chat_app") →
  users_collection s2
    = users_collection (snd (register generate_password_hash now oid req s)) →
  session_uid (snd (register generate_password_hash now oid req s)) = Some oid ∧
  login check_password_hash req s2 =
    (Ok (Redirect "chat_app"),
     {| users_collection := users_collection s2;
        session_uid := Some oid;
        flashed := flashed s2 |}).
Proof.
  intros Hbcrypt Hreg Hsame.
  destruct (register_cases generate_password_hash now oid req s)
    as [(_ & _ & Hno) |
        (name & pw & hashed & level & Hm & Hn & Hp & Hl & Hh & Hfree & _ & R)];
    [contradiction |].
  rewrite R in *. simpl in *. split; [reflexivity |].
  unfold login. rewrite Hm. simpl.
  unfold st_bind at 1. unfold st_lift at 1, form_get at 1. rewrite Hn.
  unfold st_bind at 1. unfold get_users at 1. rewrite Hsame.
  apply find_one_None in Hfree.
  rewrite (find_one_split _ _ [] _ Hfree)
    by (apply has_field_true, new_user_doc_username).
  unfold st_bind at 1. unfold st_lift at 1, doc_password.
  rewrite new_user_doc_password.
  unfold st_bind at 1. unfold st_lift at 1, form_get at 1. rewrite Hp.
  unfold st_bind at 1. unfold st_lift at 1. rewrite (Hbcrypt _ _ Hh).
  unfold st_bind, st_lift, login_user, st_ret.
  rewrite new_user_doc_init. simpl. now rewrite Hsame.
Qed.

Lemma register_then_login_witness :
  login (fun h pw => Ok (String.eqb h ("$2b$" +:+ pw)))
    {| req_method := "POST";
       req_form := {[ "username" := "blue"; "password" := "pika";
                      "level" := "Expert" ]};
       req_json := Ok JNull |}
    {| users_collection := [new_user_doc "65a2" "blue" "$2b$pika" "Expert" 7];
       session_uid := None; flashed := [] |}
  = (Ok (Redirect "chat_app"),
     {| users_collection := [new_user_doc "65a2" "blue" "$2b$pika" "Expert" 7];
        session_uid := Some "65a2"; flashed := [] |}).
Proof.
  apply (register_then_login
           (fun pw => Ok ("$2b$" +:+ pw))
           (fun h pw => Ok (String.eqb h ("$2b$" +:+ pw)))
           7 "65a2"
           {| req_method := "POST";
              req_form := {[ "username" := "blue"; "password" := "pika";
                             "level" := "Expert" ]};
              req_json := Ok JNull |}
           {| users_collection := []; session_uid := None; flashed := [] |}
           {| users_collection := [new_user_doc "65a2" "blue" "$2b$pika" "Expert" 7];
              session_uid := None; flashed := [] |}).
  - intros pw h [= <-]. now rewrite String.eqb_refl.
  - reflexivity.
  - reflexivity.
Defined.

(** ** Saved teams *)

Lemma insert_desc_perm (x : Team) (l : list Team) : insert_desc x l ≡ₚ x :: l.
Proof.
  induction l as [|y l IH]; simpl; [reflexivity |].
  destruct (date_key x <? date_key y)%N; [| reflexivity].
  rewrite IH. apply Permutation_swap.
Qed.

Lemma sort_desc_perm (l : list Team) : sort_desc l ≡ₚ l.
Proof.
  induction l as [|x l IH]; simpl; [reflexivity |].
  now rewrite insert_desc_perm, IH.
Qed.





Lemma sort_desc_newest_last (t : Team) (l acc : list Team) :
  Forall (fun x => (date_key x < date_key t)%N) l →
  fold_right insert_desc (t :: acc) l = t :: fold_right insert_desc acc l.
Proof.
  induction 1 as [|x l Hx _ IH]; simpl; [reflexivity |].
  rewrite IH. simpl. apply N.ltb_lt in Hx. now rewrite Hx.
Qed.


Lemma push_team_split (f : UserDoc → bool) (t : Team)
    (pre post : list UserDoc) (d : UserDoc) :
  Forall (fun d' => f d' = false) pre → f d = true →
  push_team f t (pre ++ d :: post) = pre ++ push_to t d :: post.
Proof.
  induction 1 as [|x pre Hx _ IH]; intros Hd; simpl.
  - now rewrite Hd.
  - rewrite Hx. now rewrite IH.
Qed.

Lemma push_team_no_match (f : UserDoc → bool) (t : Team) (users : list UserDoc) :
  Forall (fun d' => f d' = false) users → push_team f t users = users.
Proof.
  induction 1 as [|x users Hx _ IH]; simpl; [reflexivity |].
  now rewrite Hx, IH.
Qed.

(** The team [save_team] builds from the request (lines 180-186). *)
Lemma save_team_of_effect (ObjectId : string → result string)
    (now : N) (team_id : string) (req : Request) (u : User) (s : Site) :
  (fst (save_team_of ObjectId now team_id req u s)
     ≠ Ok (Jsonify (JObj [("status", JStr "success")])) ∧
   snd (save_team_of ObjectId now team_id req u s) = s)
  ∨
  (∃ members oid,
     req_json req = Ok (JObj members) ∧ ObjectId (user_id u) = Ok oid ∧
     save_team_of ObjectId now team_id req u s =
       (Ok (Jsonify (JObj [("status", JStr "success")])),
        {| users_collection :=
             push_team (has_field "_id" oid)
               {| team_oid := team_id;
                  team_title := default (JStr "Untitled") (assoc_get "title" members);
                  team_format := default (JStr "Unknown") (assoc_get "format" members);
                  team_data := default JNull (assoc_get "team_text" members);
                  team_date := Some now |}
               (users_collection s);
           session_uid := session_uid s;
           flashed := flashed s |})).
Proof.
  unfold save_team_of, st_bind, st_lift, update_one_push, st_ret, json_get.
  destruct (req_json req) as [[| | | | | |members]|e]; simpl;
    try (left; split; [discriminate | reflexivity]).
  destruct (ObjectId (user_id u)) as [oid|e]; simpl;
    [| left; split; [discriminate | reflexivity]].
  right. exists members, oid. repeat split.
Qed.

(** A saved team shows in the profile: after [save_team] for a user whose
    document is stored, [profile] lists the stored teams together with the
    new one, which carries the request's title (or 'Untitled'), format (or
    'Unknown') and text; the new team comes first when its date is later than
    the dates of all stored teams. *)
Theorem saved_team_shows_in_profile
    (ObjectId : string → result string) (now : N) (team_id : string)
    (req : Request) (u : User) (s : Site)
    (members : list (string * json)) (oid : string) (data : UserDoc) :
  req_json req = Ok (JObj members) →
  ObjectId (user_id u) = Ok oid →
  find_one (has_field "_id" oid) (users_collection s) = Some data →
  ∃ s1 teams,
    save_team_of ObjectId now team_id req u s
      = (Ok (Jsonify (JObj [("status", JStr "success")])), s1) ∧
    profile_of ObjectId u s1
      = (Ok (Render "profile.html" (Some u) (Some teams)), s1) ∧
    teams ≡ₚ
      {| team_oid := team_id;
         team_title := default (JStr "Untitled") (assoc_get "title" members);
         team_format := default (JStr "Unknown") (assoc_get "format" members);
         team_data := default JNull (assoc_get "team_text" members);
         team_date := Some now |} :: default [] (doc_teams data) ∧
    (Forall (fun x => (date_key x < now)%N) (default [] (doc_teams data)) →
     ∃ older, teams =
       {| team_oid := team_id;
          team_title := default (JStr "Untitled") (assoc_get "title" members);
          team_format := default (JStr "Unknown") (assoc_get "format" members);
          team_data := default JNull (assoc_get "team_text" members);
          team_date := Some now |} :: older).
Proof.
  intros Hjson Hoid Hfind.
  set (t := {| team_oid := team_id;
               team_title := default (JStr "Untitled") (assoc_get "title" members);
               team_format := default (JStr "Unknown") (assoc_get "format" members);
               team_data := default JNull (assoc_get "team_text" members);
               team_date := Some now |}).
  destruct (find_one_Some _ _ _ Hfind) as (pre & post & Husers & Hd & Hpre).
  eexists _, (sort_desc (default [] (doc_teams data) ++ [t])).
  split; [| split; [| split]].
  - unfold save_team_of, st_bind, st_lift, update_one_push, st_ret, json_get.
    rewrite Hjson, Hoid. simpl. fold t. reflexivity.
  - unfold profile_of, st_bind, st_lift, get_users, st_ret.
    rewrite Hoid. simpl. rewrite Husers.
    rewrite (push_team_split _ _ _ _ _ Hpre Hd).
    rewrite (find_one_split _ _ _ (push_to t data) Hpre) by exact Hd.
    reflexivity.
  - rewrite sort_desc_perm. symmetry. apply Permutation_cons_append.
  - intros Hold. exists (sort_desc (default [] (doc_teams data))).
    unfold sort_desc. rewrite fold_right_app. simpl.
    now apply sort_desc_newest_last.
Qed.

Lemma saved_team_shows_in_profile_witness :
  ∃ s1 teams,
    save_team_of (fun i => Ok i) 9 "t2" rain_request red_user red_site
      = (Ok (Jsonify (JObj [("status", JStr "success")])), s1) ∧
    profile_of (fun i => Ok i) red_user s1
      = (Ok (Render "profile.html" (Some red_user) (Some teams)), s1) ∧
    length teams = 2%nat.
Proof.
  assert (Hfind : find_one (has_field "_id" "65a1") (users_collection red_site)
                  = Some red_doc) by reflexivity.
  destruct (saved_team_shows_in_profile (fun i => Ok i) 9 "t2"
              rain_request red_user red_site
              [("title", JStr "Rain"); ("team_text", JStr "Pelipper")]
              "65a1" red_doc eq_refl eq_refl Hfind)
    as (s1 & teams & Hsave & Hprofile & Hperm & _).
  exists s1, teams. repeat split; try assumption.
  now rewrite Hperm.
Defined.

Lemma push_team_fields (f : UserDoc → bool) (t : Team) (users : list UserDoc) :
  map doc_fields (push_team f t users) = map doc_fields users.
Proof.
  induction users as [|d users IH]; simpl; [reflexivity |].
  destruct (f d); simpl; [reflexivity | now rewrite IH].
Qed.

Lemma push_team_cases (f : UserDoc → bool) (t : Team) (users : list UserDoc) :
  push_team f t users = users ∨
  ∃ pre d post, users = pre ++ d :: post ∧ f d = true ∧
                push_team f t users = pre ++ push_to t d :: post.
Proof.
  destruct (find_one f users) as [d|] eqn:Hf.
  - right. destruct (find_one_Some _ _ _ Hf) as (pre & post & -> & Hd & Hpre).
    exists pre, d, post. repeat split; [exact Hd |].
    now apply push_team_split.
  - left. apply push_team_no_match. now apply find_one_None.
Qed.

(** [save_team] touches nothing but the saved teams of one document: the
    string fields of all documents (ids, usernames, password hashes, levels),
    their order and number, and the session are as they were; at most one
    document changes, by gaining the new team, dated now, at the end of its
    teams; with a user logged in nothing is flashed. Without a logged-in user
    the view is not run: the login message is flashed, the reply is the
    redirect to the login view, and the collection and the session are as
    they were. *)
Theorem save_team_touches_teams_only
    (ObjectId : string → result string) (now : N) (team_id : string)
    (req : Request) (s : Site) :
  map doc_fields (users_collection (snd (save_team ObjectId now team_id req s)))
    = map doc_fields (users_collection s) ∧
  session_uid (snd (save_team ObjectId now team_id req s)) = session_uid s ∧
  (users_collection (snd (save_team ObjectId now team_id req s)) = users_collection s ∨
   ∃ pre d post t,
     users_collection s = pre ++ d :: post ∧
     users_collection (snd (save_team ObjectId now team_id req s))
       = pre ++ push_to t d :: post ∧
     team_oid t = team_id ∧ team_date t = Some now) ∧
  (∀ u, current_user_of ObjectId s = Some u →
        flashed (snd (save_team ObjectId now team_id req s)) = flashed s) ∧
  (current_user_of ObjectId s = None →
   save_team ObjectId now team_id req s =
     (Ok Unauthorized,
      {| users_collection := users_collection s;
         session_uid := session_uid s;
         flashed := flashed s ++ ["Please log in to access this page."] |})).
Proof.
  unfold save_team, login_required.
  destruct (current_user_of ObjectId s) as [u|].
  2: { unfold st_bind, flash, st_ret. simpl.
       split; [reflexivity |]. split; [reflexivity |].
       split; [now left |]. split; [discriminate | reflexivity]. }
  destruct (save_team_of_effect ObjectId now team_id req u s)
    as [[_ ->] | (members & oid & _ & _ & ->)]; simpl.
  - split; [reflexivity |]. split; [reflexivity |].
    split; [now left |]. split; [reflexivity | discriminate].
  - split; [apply push_team_fields |]. split; [reflexivity |].
    split; [| split; [reflexivity | discriminate]].
    match goal with
    | |- push_team ?f ?t ?l = _ ∨ _ =>
        destruct (push_team_cases f t l) as [-> | (pre & d & post & Hl & _ & Hp)]
    end.
    + now left.
    + right. exists pre, d, post. eexists. repeat split; [exact Hl | exact Hp | |];
        reflexivity.
Qed.

(** After [logout] nobody is logged in, and the collection is untouched.
    Until somebody logs in again, every route behind the login refuses the
    request: the view is not run, the login message is flashed, the reply is
    the redirect to the login view, and the collection and the session are as
    they were. For a logged-in user [logout] itself clears the session id and
    redirects to the landing page. *)
Theorem logout_closes_session
    (ObjectId : string → result string) (s : Site) :
  current_user_of ObjectId (snd (logout ObjectId s)) = None ∧
  users_collection (snd (logout ObjectId s)) = users_collection s ∧
  (∀ s1, s1 = snd (logout ObjectId s) →
     chat_app ObjectId s1 =
       (Ok Unauthorized,
        {| users_collection := users_collection s1;
           session_uid := session_uid s1;
           flashed := flashed s1 ++ ["Please log in to access this page."] |}) ∧
     profile ObjectId s1 =
       (Ok Unauthorized,
        {| users_collection := users_collection s1;
           session_uid := session_uid s1;
           flashed := flashed s1 ++ ["Please log in to access this page."] |}) ∧
     ∀ now team_id req,
       save_team ObjectId now team_id req s1 =
         (Ok Unauthorized,
          {| users_collection := users_collection s1;
             session_uid := session_uid s1;
             flashed := flashed s1 ++ ["Please log in to access this page."] |})) ∧
  (∀ u, current_user_of ObjectId s = Some u →
        logout ObjectId s =
          (Ok (Redirect "landing"),
           {| users_collection := users_collection s;
              session_uid := None;
              flashed := flashed s |})).
Proof.
  assert (Hnone : current_user_of ObjectId (snd (logout ObjectId s)) = None).
  { unfold logout, login_required.
    destruct (current_user_of ObjectId s) as [u|] eqn:Hu; simpl; [reflexivity | exact Hu]. }
  split; [exact Hnone |].
  split; [unfold logout, login_required;
          destruct (current_user_of ObjectId s); reflexivity |].
  split.
  - intros s1 ->.
    assert (Hrefused : ∀ route,
              login_required ObjectId route (snd (logout ObjectId s))
              = (Ok Unauthorized,
                 {| users_collection := users_collection (snd (logout ObjectId s));
                    session_uid := session_uid (snd (logout ObjectId s));
                    flashed := flashed (snd (logout ObjectId s))
                                 ++ ["Please log in to access this page."] |})).
    { intros route. unfold login_required at 1. now rewrite Hnone. }
    unfold chat_app, profile, save_team.
    split; [apply Hrefused |]. split; [apply Hrefused |].
    intros; apply Hrefused.
  - intros u Hu. unfold logout, login_required. now rewrite Hu.
Qed.

(** ** Sessions over the life of a process *)

(** The calls one turn adds to the trace. *)
Lemma chat_trace (eng : Engine) (u : User) (msg : json) (w : World) :
  trace (snd (chat eng u msg w)) =
  trace w
  ++ (if decide (session_of u ∈ INITIALIZED_SESSIONS w) then []
      else CreateSession (session_of u) "web_user" APP_NAME ::
           match create_session eng (session_of u) "web_user" APP_NAME with
           | Ok _ => []
           | Raise e => [Stdout ("Session init info: " +:+ str_exn e)]
           end)
  ++ [RunAsync "web_user" (session_of u) (new_message msg)].
Proof.
  unfold chat, session_of.
  set (sid := "session_" +:+ user_id u).
  unfold bind at 1. unfold get_runner.
  destruct (RUNNER_CACHE w !! sid) as [r|] eqn:Hc.
  - unfold bind at 1. unfold ensure_session.
    destruct (decide (sid ∈ INITIALIZED_SESSIONS w)) as [Hin|Hout].
    + unfold consume. run_m. destruct (ending _); reflexivity.
    + unfold consume. run_m.
      destruct (create_session eng sid "web_user" APP_NAME) as [[]|e]; simpl;
        destruct (ending _); simpl; rewrite <- ?app_assoc; reflexivity.
  - unfold bind at 1. unfold fresh, cache_runner, ret at 1. simpl.
    unfold bind at 1. unfold ensure_session. simpl.
    destruct (decide (sid ∈ INITIALIZED_SESSIONS w)) as [Hin|Hout].
    + unfold consume. run_m. destruct (ending _); reflexivity.
    + unfold consume. run_m.
      destruct (create_session eng sid "web_user" APP_NAME) as [[]|e]; simpl;
        destruct (ending _); simpl; rewrite <- ?app_assoc; reflexivity.
Qed.

Lemma creations_app (k : string) (t1 t2 : list call) :
  creations k (t1 ++ t2) = (creations k t1 + creations k t2)%nat.
Proof. unfold creations. now rewrite List.filter_app, length_app. Qed.

Lemma creations_none (k : string) (l : list call) :
  Forall (fun c => is_creation k c = false) l → creations k l = 0%nat.
Proof.
  unfold creations. induction 1 as [|c l Hc _ IH]; simpl; [reflexivity |].
  now rewrite Hc.
Qed.

Lemma creations_cons (k : string) (c : call) (l : list call) :
  creations k (c :: l) = (creations k [c] + creations k l)%nat.
Proof. apply (creations_app k [c] l). Qed.

Lemma creations_single (k sid a b : string) :
  creations k [CreateSession sid a b] = if decide (k = sid) then 1%nat else 0%nat.
Proof.
  unfold creations, is_creation, List.filter.
  destruct (String.eqb_spec sid k); case_decide; subst; try reflexivity; congruence.
Qed.

Lemma generation_calls_app (t1 t2 : list call) :
  generation_calls (t1 ++ t2) = (generation_calls t1 + generation_calls t2)%nat.
Proof. unfold generation_calls. now rewrite List.filter_app, length_app. Qed.

(** In a process that starts with an empty set of initialized sessions and
    serves its chat turns one after the other, each turn ending before the
    next begins, the session-creation call is made exactly once for the
    session id of every user who chatted and never for another id, whether the
    creation calls return or raise; and every turn makes one generation call.
    (Turns that overlap at the awaits of lines 204 and 221 are not turns of
    [chat_turns].) *)
Theorem session_created_once_in_serial_turns
    (turns : list (Engine * User * json)) (session_id : string) :
  creations session_id (trace (chat_turns turns fresh_world))
    = (if decide (session_id ∈ sessions_of turns) then 1 else 0)%nat ∧
  generation_calls (trace (chat_turns turns fresh_world)) = length turns.
Proof.
  induction turns as [|[[eng u] msg] turns [IHc IHg]] using rev_ind.
  - split; reflexivity.
  - rewrite chat_turns_snoc, chat_trace.
    rewrite (initialized_sessions_of turns).
    assert (Hs := sessions_of_snoc turns eng u msg).
    split.
    + rewrite !creations_app, IHc, Hs.
      destruct (decide (session_of u ∈ sessions_of turns)) as [Hin|Hout].
      * simpl. repeat case_decide; try reflexivity; set_solver.
      * rewrite (creations_cons _ (CreateSession _ _ _)), creations_single.
        rewrite (creations_none session_id
                   (match create_session eng _ _ _ with
                    | Ok _ => []
                    | Raise e => [Stdout ("Session init info: " +:+ str_exn e)]
                    end))
          by (destruct (create_session eng _ _ _); repeat constructor).
        change (creations session_id [RunAsync _ _ _]) with 0%nat.
        repeat case_decide; subst; try reflexivity; try lia; set_solver.
    + assert (Hnone : generation_calls
                (if decide (session_of u ∈ sessions_of turns) then []
                 else CreateSession (session_of u) "web_user" APP_NAME ::
                      match create_session eng (session_of u) "web_user" APP_NAME with
                      | Ok _ => []
                      | Raise e => [Stdout ("Session init info: " +:+ str_exn e)]
                      end) = 0%nat).
      { destruct (decide (session_of u ∈ sessions_of turns)); [reflexivity |].
        destruct (create_session eng _ _ _); reflexivity. }
      rewrite length_app, !generation_calls_app, IHg, Hnone. reflexivity.
Qed.

Lemma find_snoc {A : Type} (f : A → bool) (l : list A) (x : A) :
  List.find f (l ++ [x]) =
  match List.find f l with
  | Some t => Some t
  | None => if f x then Some x else None
  end.
Proof.
  induction l as [|y l IH]; simpl; [reflexivity |].
  destruct (f y); [reflexivity | exact IH].
Qed.

Lemma first_turn_snoc (sid : string) (turns : list (Engine * User * json))
    (eng : Engine) (u : User) (msg : json) :
  first_turn sid (turns ++ [(eng, u, msg)]) =
  match first_turn sid turns with
  | Some t => Some t
  | None => if String.eqb (session_of u) sid then Some (eng, u, msg) else None
  end.
Proof.
  unfold first_turn.
  exact (find_snoc (fun '(_, v, _) => String.eqb (session_of v) sid)
           turns (eng, u, msg)).
Qed.

(** The runner cached for a session keeps the system instruction of the
    knowledge level its user had on the first turn of the process, whatever
    level the user has on later turns; a session id without a turn has no
    runner. *)
Theorem cached_runner_keeps_first_level
    (turns : list (Engine * User * json)) (session_id : string) :
  (fun r => instruction (agent r))
    <$> (RUNNER_CACHE (chat_turns turns fresh_world) !! session_id)
  = (fun '(_, u, _) => get_system_prompt (knowledge_level u))
    <$> first_turn session_id turns.
Proof.
  induction turns as [|[[eng u] msg] turns IH] using rev_ind.
  - simpl. now rewrite lookup_empty.
  - rewrite chat_turns_snoc, first_turn_snoc.
    destruct (chat_effect eng u msg (chat_turns turns fresh_world))
      as (reply & w' & calls & Hchat & Hcache & _).
    rewrite Hchat. cbn [snd]. rewrite Hcache. clear Hchat Hcache.
    destruct (String.eqb_spec (session_of u) session_id) as [<- | Hne].
    + destruct (RUNNER_CACHE (chat_turns turns fresh_world) !! session_of u)
        as [r|] eqn:Hc.
      * rewrite Hc in *. destruct (first_turn (session_of u) turns); [exact IH |].
        discriminate.
      * rewrite lookup_insert_eq.
        destruct (first_turn (session_of u) turns); [discriminate | reflexivity].
    + assert (Hsame :
        match RUNNER_CACHE (chat_turns turns fresh_world) !! session_of u with
        | Some _ => RUNNER_CACHE (chat_turns turns fresh_world)
        | None => <[session_of u :=
                     build_runner (next_ident (chat_turns turns fresh_world))
                       (knowledge_level u)]>
                    (RUNNER_CACHE (chat_turns turns fresh_world))
        end !! session_id
        = RUNNER_CACHE (chat_turns turns fresh_world) !! session_id).
      { destruct (RUNNER_CACHE (chat_turns turns fresh_world) !! session_of u);
          [reflexivity | now rewrite lookup_insert_ne]. }
      rewrite Hsame, IH.
      destruct (first_turn session_id turns); reflexivity.
Qed.

(** ** Registration is all or nothing *)

Lemma register_succeeds (generate_password_hash : string → result string)
    (now : N) (oid : string) (req : Request) (s : Site)
    (name pw hashed level : string) :
  req_method req = "POST" →
  req_form req !! "username" = Some name →
  req_form req !! "password" = Some pw →
  req_form req !! "level" = Some level →
  generate_password_hash pw = Ok hashed →
  find_one (has_field "username" name) (users_collection s) = None →
  find_one (has_field "_id" oid) (users_collection s) = None →
  register generate_password_hash now oid req s =
    (Ok (Redirect "chat_app"),
     {| users_collection :=
          users_collection s ++ [new_user_doc oid name hashed level now];
        session_uid := Some oid;
        flashed := flashed s |}).
Proof.
  intros Hm Hn Hp Hl Hh Hfree Hid.
  unfold register. rewrite Hm. simpl.
  unfold st_bind at 1. unfold st_lift at 1, form_get at 1. rewrite Hn.
  unfold st_bind at 1. unfold get_users at 1. rewrite Hfree.
  unfold st_bind at 1. unfold st_lift at 1, form_get at 1. rewrite Hp.
  unfold st_bind at 1. unfold st_lift at 1. rewrite Hh.
  unfold st_bind at 1. unfold st_lift at 1, form_get at 1. rewrite Hl.
  unfold st_bind at 1. unfold insert_one at 1. rewrite Hid.
  unfold st_bind at 1. unfold get_users at 1. simpl.
  apply find_one_None in Hfree.
  rewrite (find_one_split _ _ [] _ Hfree)
    by (apply has_field_true, new_user_doc_username).
  unfold st_bind, st_lift, User_of_found, login_user, st_ret.
  rewrite new_user_doc_init. reflexivity.
Qed.

(** [register] is all or nothing. It redirects to the chat exactly when
    the request is a POST with a username, a password and a level, bcrypt
    hashes the password, and neither the username nor the new id is stored
    yet; it then appends one document, holding the username, the hash in
    place of the password, the level, the creation date and no team, and logs
    that user in. In every other case (a GET, a taken username, a missing
    field, a password bcrypt refuses) the collection and the session are as
    they were. *)
Theorem register_all_or_nothing
    (generate_password_hash : string → result string)
    (now : N) (oid : string) (req : Request) (s : Site) :
  (fst (register generate_password_hash now oid req s) = Ok (Redirect "chat_app") ↔
   ∃ name pw hashed level,
     req_method req = "POST" ∧
     req_form req !! "username" = Some name ∧
     req_form req !! "password" = Some pw ∧
     req_form req !! "level" = Some level ∧
     generate_password_hash pw = Ok hashed ∧
     find_one (has_field "username" name) (users_collection s) = None ∧
     find_one (has_field "_id" oid) (users_collection s) = None ∧
     snd (register generate_password_hash now oid req s) =
       {| users_collection :=
            users_collection s ++ [new_user_doc oid name hashed level now];
          session_uid := Some oid;
          flashed := flashed s |}) ∧
  (fst (register generate_password_hash now oid req s) ≠ Ok (Redirect "chat_app") →
   users_collection (snd (register generate_password_hash now oid req s))
     = users_collection s ∧
   session_uid (snd (register generate_password_hash now oid req s))
     = session_uid s).
Proof.
  split; [split |].
  - intros Hok.
    destruct (register_cases generate_password_hash now oid req s)
      as [(_ & _ & Hno) | (name & pw & hashed & level & H)]; [contradiction |].
    exists name, pw, hashed, level.
    destruct H as (Hm & Hn & Hp & Hl & Hh & Hfree & Hid & ->).
    repeat split; assumption.
  - intros (name & pw & hashed & level & Hm & Hn & Hp & Hl & Hh & Hfree & Hid & _).
    now rewrite (register_succeeds _ now oid req s name pw hashed level).
  - intros Hno.
    destruct (register_cases generate_password_hash now oid req s)
      as [(Hu & Hs & _) | (name & pw & hashed & level & H)]; [now split |].
    destruct H as (_ & _ & _ & _ & _ & _ & _ & R).
    rewrite R in Hno. contradiction.
Qed.
